(** * yoot: task definitions and their validation

    A shallow embedding of [src/yoot/task.py] and [src/yoot/experiment.py],
    and of the release tool [tools/bump.py].

    Python sets of strings are [gset string], dictionaries are association
    lists in insertion order (the order in which Python iterates them),
    [None]-or-value fields are [option]s and a raised exception is the
    [Raise] constructor of [result]. *)

From Stdlib Require Import String Ascii List ZArith DecimalString DecimalPos DecimalN.
From stdpp Require Import base gmap sets list strings.

Local Open Scope string_scope.
Set Warnings "-register-all,-clear-no-such-hyp".

(** ** Exceptions ([src/yoot/exceptions.py] and the builtins the code raises) *)

Inductive exn : Type :=
| TaskDefinitionError (msg : string)
| ValueError (msg : string)
| NameError (name : string)
| TypeError (msg : string)
| KeyError (key : string)
| AttributeError (attr : string)
| FileNotFoundError (path : string).

Inductive result (A : Type) : Type :=
| Ok (a : A)
| Raise (e : exn).

Arguments Ok {A} a.
Arguments Raise {A} e.

(** Sequencing stops at the first exception; [x ← r; k] is stdpp's notation. *)
#[global] Instance result_bind : MBind result :=
  fun A B (k : A -> result B) (r : result A) =>
    match r with
    | Ok a => k a
    | Raise e => Raise e
    end.

(** ** Python values that flow through the models *)

Inductive pyval : Type :=
| VNone
| VBool (b : bool)
| VInt (z : Z)
| VStr (s : string)
| VPath (p : string)
| VSet (s : gset string)
| VList (l : list pyval)
| VDict (d : list (string * pyval)).

(** [dict[str, Any]], in insertion order. *)
Abbreviation dict := (list (string * pyval)).

(** [d.keys()], and [set(d.keys())]. *)
Definition keys (d : dict) : list string := map fst d.
Definition key_set (d : dict) : gset string := list_to_set (keys d).

(** Truth value of an optional dictionary: [None] and [{}] are false. *)
Definition truthy (p : option dict) : bool :=
  match p with
  | Some (_ :: _) => true
  | _ => false
  end.

(** [d.get(k)] on a dictionary or on a keyword-argument list. *)
Fixpoint get (d : dict) (k : string) : option pyval :=
  match d with
  | [] => None
  | (k', v) :: rest => if String.eqb k' k then Some v else get rest k
  end.

(** [sep.join(xs)] *)
Definition join (sep : string) (xs : list string) : string := String.concat sep xs.

(** [s.split(":")]: one more piece than there are colons, empty pieces kept. *)
Fixpoint split_colon (s : string) : list string :=
  match s with
  | EmptyString => [EmptyString]
  | String c rest =>
      if Ascii.eqb c ":"%char then EmptyString :: split_colon rest
      else match split_colon rest with
           | piece :: pieces => String c piece :: pieces
           | [] => [String c EmptyString]
           end
  end.

(** Number of [":"] characters of a string. *)
Fixpoint colons (s : string) : nat :=
  match s with
  | EmptyString => 0
  | String c rest => (if Ascii.eqb c ":"%char then 1 else 0) + colons rest
  end.

(** ** Data model ([src/yoot/task.py]) *)

Module TaskMetadata.
Record t : Type := mk {
  inputs : gset string;
  outputs : gset string;
  params : option dict;
}.
End TaskMetadata.

Module TaskSchema.
Record t : Type := mk {
  inputs : gset string;
  outputs : gset string;
  params : option dict;
  func : string;
}.

(** [schema.model_dump()] *)
Definition model_dump (schema : t) : dict :=
  [ ("inputs", VSet (inputs schema));
    ("outputs", VSet (outputs schema));
    ("params", match params schema with Some d => VDict d | None => VNone end);
    ("func", VStr (func schema)) ].
End TaskSchema.

(** A callable, as far as the code looks at it: its [__name__] and the names
    of its formal parameters, in order ([inspect.Signature.parameters]). *)
Record callable : Type := mk_callable {
  fn_name : string;
  fn_parameters : list string;
}.

(** A parameter model class: [parse_obj] either returns an instance or
    raises pydantic's [ValidationError] ([None]). *)
Record ParamSchema : Type := mk_param_schema {
  parse_obj : dict -> option dict;
}.

Module Task.
Record t : Type := mk {
  name : string;
  func : callable;
  param_schema : option ParamSchema;
}.

(** [Task.define(func, name=..., params=...)] with a function given. *)
Definition define (f : callable) (name : option string) (params : option ParamSchema) : t :=
  let name := match name with
              | Some n => if String.eqb n "" then fn_name f else n
              | None => fn_name f
              end in
  mk name f params.
End Task.


(** The part of the outside world the resolver looks at: which paths are
    existing files, and what executing a file as a module defines. *)
Record FileSystem : Type := mk_fs {
  is_file : string -> bool;
  exec_module : string -> option (list (string * callable));
}.

(** Python's [for x in xs: body], where the body may raise. *)
Fixpoint for_each {A : Type} (xs : list A) (body : A -> result unit) : result unit :=
  match xs with
  | [] => Ok tt
  | x :: rest => _ ← body x; for_each rest body
  end.

(** Reading a variable: [NameError] when no scope binds it. *)
Definition load_name (scope : dict) (x : string) : result pyval :=
  match get scope x with
  | Some v => Ok v
  | None => Raise (NameError x)
  end.

Module ValidatedTaskSchema.
Record t : Type := mk {
  inputs : gset string;
  outputs : gset string;
  params : option dict;
  file : string;
  name : string;
}.

(** pydantic's validation of one keyword argument against the field's
    annotation; [None] is a validation error for that field. *)
Definition field_set (kw : dict) (k : string) : option (gset string) :=
  match get kw k with
  | None => Some ∅
  | Some (VSet s) => Some s
  | Some _ => None
  end.

Definition field_params (kw : dict) : option (option dict) :=
  match get kw "params" with
  | None | Some VNone => Some None
  | Some (VDict d) => Some (Some d)
  | Some _ => None
  end.

Definition field_file (fs : FileSystem) (kw : dict) : option string :=
  match get kw "file" with
  | Some (VPath p) | Some (VStr p) => if is_file fs p then Some p else None
  | _ => None
  end.

Definition field_name (kw : dict) : option string :=
  match get kw "name" with
  | Some (VStr s) => Some s
  | _ => None
  end.

(** The model constructor called with the keyword arguments [kw]: every
    declared field is validated, keywords that name no field are ignored
    (pydantic's default), and any failing or missing required field makes
    the construction raise [ValidationError] ([None]). *)
Definition init (fs : FileSystem) (kw : dict) : option t :=
  match field_set kw "inputs", field_set kw "outputs", field_params kw,
        field_file fs kw, field_name kw with
  | Some i, Some o, Some p, Some f, Some n => Some (mk i o p f n)
  | _, _, _, _, _ => None
  end.

(** [ValidatedTaskSchema.from_unvalidated], task.py lines 27-38. *)
Definition from_unvalidated (fs : FileSystem) (schema : TaskSchema.t) : result t :=
  let split_func := split_colon (TaskSchema.func schema) in
  if bool_decide (length split_func ≠ 2) then
    Raise (TaskDefinitionError ("Invalid function definition: " +:+ TaskSchema.func schema))
  else
    match split_func with
    | [file; func_name] =>
        match init fs (("file", VPath file) :: ("func_name", VStr func_name)
                         :: TaskSchema.model_dump schema) with
        | Some v => Ok v
        | None => Raise (TaskDefinitionError "Invalid task schema.")
        end
    | _ => Raise (ValueError "not enough values to unpack")
    end.
End ValidatedTaskSchema.

Module ValidatedTaskDefinition.
Record t : Type := mk {
  name : string;
  params : option dict;
  inputs : gset string;
  outputs : gset string;
}.

Section validate_outputs.
(** The order in which Python iterates a set of strings. It depends on
    the interpreter's string hashing, so it is left open here. *)
Variable set_iter : gset string -> list string.

(** [ValidatedTaskDefinition.validate_outputs], task.py lines 129-143.
    Falling off the end of the function returns [None], here [tt]. *)
Definition validate_outputs (self : t) (outputs : dict) : result unit :=
  let actual_outputs_set := key_set outputs in
  let missing_outputs := ValidatedTaskDefinition.outputs self ∖ actual_outputs_set in
  let extra_outputs := actual_outputs_set ∖ ValidatedTaskDefinition.outputs self in
  if bool_decide (missing_outputs ≠ ∅) then
    Raise (TaskDefinitionError
             ("Task is missing expected outputs: "
                +:+ join ", " (set_iter missing_outputs) +:+ "."))
  else if bool_decide (extra_outputs ≠ ∅) then
    Raise (TaskDefinitionError
             ("Task has unexpected outputs: "
                +:+ join ", " (set_iter extra_outputs) +:+ "."))
  else Ok tt.
End validate_outputs.
End ValidatedTaskDefinition.

Module TaskDefinition.
Record t : Type := mk {
  inputs : gset string;
  outputs : gset string;
  params : option dict;
  name : string;
}.

(** [self.model_dump()] *)
Definition model_dump (self : t) : dict :=
  [ ("inputs", VSet (inputs self));
    ("outputs", VSet (outputs self));
    ("params", match params self with Some d => VDict d | None => VNone end);
    ("name", VStr (name self)) ].

(** [TaskDefinition._validate_schema], task.py lines 69-80. Line 76 reads
    the variable [file_path]; the names bound at that point are the two
    parameters and the three locals assigned above it, and the module
    has no global of that name. *)
Definition _validate_schema (fs : FileSystem) (self : t) (schema : TaskSchema.t)
  : result callable :=
  let split_func := split_colon (TaskSchema.func schema) in
  if bool_decide (length split_func ≠ 2) then
    Raise (TaskDefinitionError ("Invalid function definition: " +:+ TaskSchema.func schema))
  else
    match split_func with
    | [file; func_name] =>
        let scope : dict :=
          [ ("self", VDict (model_dump self));
            ("schema", VDict (TaskSchema.model_dump schema));
            ("split_func", VList [VStr file; VStr func_name]);
            ("file", VStr file);
            ("func_name", VStr func_name) ] in
        file_path ← load_name scope "file_path";
        location ← match file_path with
                   | VStr p | VPath p => Ok p
                   | _ => Raise (TypeError "expected str, bytes or os.PathLike object")
                   end;
        my_module ← match exec_module fs location with
                    | Some defs => Ok defs
                    | None => Raise (FileNotFoundError location)
                    end;
        match find (fun d => String.eqb (fst d) func_name) my_module with
        | Some (_, f) => Ok f
        | None => Raise (AttributeError func_name)
        end
    | _ => Raise (ValueError "not enough values to unpack")
    end.

(** [TaskDefinition.validate], task.py lines 82-123. [arg_names] is the
    local set the code updates in place; each update is a rebinding here. *)
Definition validate (self : t) (task : Task.t) (schema : TaskSchema.t)
  : result ValidatedTaskDefinition.t :=
  let signature := fn_parameters (Task.func task) in
  let arg_names : gset string := list_to_set signature in
  if bool_decide ("tracker" ∉ arg_names) then
    Raise (TaskDefinitionError
             ("Task " +:+ Task.name task +:+ " is missing the 'tracker' parameter."))
  else
    let arg_names := arg_names ∖ {["tracker"]} in
    if truthy (params self) && bool_decide (Task.param_schema task = None) then
      Raise (TaskDefinitionError
               ("Task " +:+ Task.name task +:+
                " does not accept parameters but Task definition defines them."))
    else if bool_decide (params self = None) && bool_decide (Task.param_schema task ≠ None) then
      Raise (TaskDefinitionError
               ("Task " +:+ Task.name task +:+
                " requires parameters but Task definition does not define them."))
    else
      params ← match params self, Task.param_schema task with
               | Some (kv :: raw), Some param_schema =>
                   match parse_obj param_schema (kv :: raw) with
                   | Some parsed => Ok (Some parsed)
                   | None => Raise (TaskDefinitionError
                                      ("Task " +:+ Task.name task +:+ " parameters are invalid."))
                   end
               | _, _ => Ok None
               end;
      let arg_names := arg_names ∖ {["params"]} in
      if bool_decide (arg_names ≠ inputs self) then
        Raise (TaskDefinitionError
                 ("Task " +:+ Task.name task +:+ " inputs do not match the Task definition."))
      else
        Ok (ValidatedTaskDefinition.mk (name self) params (inputs self) (outputs self)).
End TaskDefinition.

(** ** The experiment aggregate ([src/yoot/experiment.py]) *)

Module ExperimentSchema.
Record t : Type := mk {
  tasks : list (string * TaskSchema.t);
}.

(** [ExperimentSchema.validate], experiment.py lines 14-23. *)
Definition validate (self : t) : result unit :=
  for_each (tasks self) (fun '(name, task) =>
    if bool_decide (TaskSchema.inputs task = ∅) then
      Raise (ValueError ("Task " +:+ name +:+ " has no inputs."))
    else if bool_decide (TaskSchema.outputs task = ∅) then
      Raise (ValueError ("Task " +:+ name +:+ " has no outputs."))
    else
      match TaskSchema.params task with
      | Some (kv :: raw) =>
          for_each (keys (kv :: raw)) (fun param =>
            if bool_decide (param ∉ TaskSchema.inputs task) then
              Raise (ValueError ("Task " +:+ name +:+ " has a parameter " +:+ param
                                   +:+ " that is not an input."))
            else Ok tt)
      | _ => Ok tt
      end).
End ExperimentSchema.

(** [mentions msg x]: the text [x] occurs in the message [msg]. *)
Definition mentions (msg x : string) : bool :=
  match String.index 0 x msg with
  | Some _ => true
  | None => false
  end.

(** The parameter keys a task schema declares. *)
Definition declared_keys (task : TaskSchema.t) : list string :=
  match TaskSchema.params task with
  | Some d => keys d
  | None => []
  end.

(** The three rules of the aggregate, for one task. *)
Definition violates (task : TaskSchema.t) : Prop :=
  TaskSchema.inputs task = ∅
  \/ TaskSchema.outputs task = ∅
  \/ exists param, param ∈ declared_keys task /\ param ∉ TaskSchema.inputs task.

(** The error both resolvers raise for a reference of the wrong shape. *)
Definition invalid_function_definition (ref : string) : exn :=
  TaskDefinitionError ("Invalid function definition: " +:+ ref).

(** A reference of the form [<nonempty>:<nonempty>] with a single colon. *)
Definition well_formed_reference (ref : string) : Prop :=
  exists file symbol,
    ref = file +:+ ":" +:+ symbol
    /\ colons file = 0 /\ colons symbol = 0
    /\ file ≠ "" /\ symbol ≠ "".

(** The callable's formal-parameter names without [tracker] and [params]. *)
Definition remaining (task : Task.t) : gset string :=
  list_to_set (fn_parameters (Task.func task)) ∖ {["tracker"]} ∖ {["params"]}.

(** The checks on the parameter declaration, task.py lines 92-108: the two
    symmetry checks pass and, where the mapping is parsed, parsing succeeds. *)
Definition param_checks_pass (self : TaskDefinition.t) (task : Task.t) : Prop :=
  (truthy (TaskDefinition.params self) = true -> Task.param_schema task ≠ None)
  /\ (TaskDefinition.params self = None -> Task.param_schema task = None)
  /\ (forall raw param_schema,
        TaskDefinition.params self = Some raw -> truthy (Some raw) = true ->
        Task.param_schema task = Some param_schema ->
        parse_obj param_schema raw ≠ None).

(** The parameter object [validate] binds: the parsed mapping when both
    sides declare parameters and the mapping is not empty, else [None]. *)
Definition bound_params (self : TaskDefinition.t) (task : Task.t) : option dict :=
  match TaskDefinition.params self, Task.param_schema task with
  | Some (kv :: raw), Some param_schema => parse_obj param_schema (kv :: raw)
  | _, _ => None
  end.

(** The messages of [TaskDefinition.validate]. *)
Definition msg_missing_tracker (task : Task.t) : string :=
  "Task " +:+ Task.name task +:+ " is missing the 'tracker' parameter.".
Definition msg_accepts_no_params (task : Task.t) : string :=
  "Task " +:+ Task.name task +:+ " does not accept parameters but Task definition defines them.".
Definition msg_requires_params (task : Task.t) : string :=
  "Task " +:+ Task.name task +:+ " requires parameters but Task definition does not define them.".
Definition msg_invalid_params (task : Task.t) : string :=
  "Task " +:+ Task.name task +:+ " parameters are invalid.".
Definition msg_inputs_mismatch (task : Task.t) : string :=
  "Task " +:+ Task.name task +:+ " inputs do not match the Task definition.".

(** ** The same validator over a store of mutable objects

    Python sets and dictionaries are objects that are passed by reference
    and updated in place. To say that [validate] changes none of the objects
    it is given, the sets and dictionaries live in a store here, the fields
    of a definition hold references into it, and [validate] is a program in
    a state-and-exception monad over that store. *)

Module Store.
Abbreviation loc := positive.

Inductive object : Type :=
| PySet (s : gset string)
| PyDict (d : dict).

Abbreviation heap := (gmap loc object).

Definition M (A : Type) : Type := heap -> result A * heap.

Definition ret {A : Type} (a : A) : M A := fun h => (Ok a, h).
Definition raise {A : Type} (e : exn) : M A := fun h => (Raise e, h).
Definition bindM {A B : Type} (m : M A) (k : A -> M B) : M B :=
  fun h =>
    match m h with
    | (Ok a, h') => k a h'
    | (Raise e, h') => (Raise e, h')
    end.

Notation "'let*' x ':=' m 'in' k" := (bindM m (fun x => k))
  (at level 10, x name, m at level 100, k at level 200).

(** Creating an object puts it at a location no object has yet. *)
Definition alloc (o : object) : M loc :=
  fun h => let l := fresh (dom h) in (Ok l, <[l := o]> h).

Definition read_set (l : loc) : M (gset string) :=
  fun h =>
    match h !! l with
    | Some (PySet s) => (Ok s, h)
    | _ => (Raise (TypeError "not a set"), h)
    end.

Definition read_dict (l : loc) : M dict :=
  fun h =>
    match h !! l with
    | Some (PyDict d) => (Ok d, h)
    | _ => (Raise (TypeError "not a dict"), h)
    end.

Definition write_set (l : loc) (s : gset string) : M unit :=
  fun h => (Ok tt, <[l := PySet s]> h).

(** [set(xs)] for an iterable of names, and [set(s)] for a set [s]: a new
    set object in both cases. *)
Definition set_new (xs : list string) : M loc := alloc (PySet (list_to_set xs)).
Definition set_copy (l : loc) : M loc :=
  let* s := read_set l in alloc (PySet s).

(** [x in s], [s.remove(x)] (raises [KeyError] when absent), [s.discard(x)] *)
Definition set_contains (l : loc) (x : string) : M bool :=
  let* s := read_set l in ret (bool_decide (x ∈ s)).
Definition set_remove (l : loc) (x : string) : M unit :=
  let* s := read_set l in
  if bool_decide (x ∈ s) then write_set l (s ∖ {[x]}) else raise (KeyError x).
Definition set_discard (l : loc) (x : string) : M unit :=
  let* s := read_set l in write_set l (s ∖ {[x]}).

(** Reading an optional dictionary field. *)
Definition read_params (p : option loc) : M (option dict) :=
  match p with
  | Some l => let* d := read_dict l in ret (Some d)
  | None => ret None
  end.

(** A [ValidatedTaskDefinition] object and a [TaskDefinition] object:
    the fields that hold a set or a dictionary hold a reference to it. *)
Module ValidatedRef.
Record t : Type := mk {
  name : string;
  params : option loc;
  inputs : loc;
  outputs : loc;
}.
End ValidatedRef.

Module DefinitionRef.
Record t : Type := mk {
  inputs : loc;
  outputs : loc;
  params : option loc;
  name : string;
}.
End DefinitionRef.

Section validate.
Import DefinitionRef.

(** [TaskDefinition.validate], task.py lines 82-123, statement by
    statement. The model constructor of line 118 validates its
    arguments, which builds new sets from the ones it is given. *)
Definition validate (self : t) (task : Task.t) (schema : TaskSchema.t)
  : M ValidatedRef.t :=
  let signature := fn_parameters (Task.func task) in
  let* arg_names := set_new signature in
  let* has_tracker := set_contains arg_names "tracker" in
  if negb has_tracker then raise (TaskDefinitionError (msg_missing_tracker task))
  else
    let* _ := set_remove arg_names "tracker" in
    let* self_params := read_params (params self) in
    if truthy self_params && bool_decide (Task.param_schema task = None) then
      raise (TaskDefinitionError (msg_accepts_no_params task))
    else if bool_decide (params self = None)
            && bool_decide (Task.param_schema task ≠ None) then
      raise (TaskDefinitionError (msg_requires_params task))
    else
      let* params :=
        match self_params, Task.param_schema task with
        | Some (kv :: raw), Some param_schema =>
            match parse_obj param_schema (kv :: raw) with
            | Some parsed => let* l := alloc (PyDict parsed) in ret (Some l)
            | None => raise (TaskDefinitionError (msg_invalid_params task))
            end
        | _, _ => ret None
        end in
      let* _ := set_discard arg_names "params" in
      let* inputs_set := set_copy (inputs self) in
      let* lhs := read_set arg_names in
      let* rhs := read_set inputs_set in
      if bool_decide (lhs ≠ rhs) then
        raise (TaskDefinitionError (msg_inputs_mismatch task))
      else
        let* inputs := set_copy (inputs self) in
        let* outputs := set_copy (outputs self) in
        ret (ValidatedRef.mk (name self) params inputs outputs).
End validate.

(** What a reference stands for in a store. *)
Definition view_set (h : heap) (l : loc) : option (gset string) :=
  match h !! l with
  | Some (PySet s) => Some s
  | _ => None
  end.

Definition view_dict (h : heap) (l : loc) : option dict :=
  match h !! l with
  | Some (PyDict d) => Some d
  | _ => None
  end.

Definition view_params (h : heap) (p : option loc) : option (option dict) :=
  match p with
  | Some l => Some <$> view_dict h l
  | None => Some None
  end.

Definition view_definition (h : heap) (self : DefinitionRef.t)
  : option TaskDefinition.t :=
  i ← view_set h (DefinitionRef.inputs self);
  o ← view_set h (DefinitionRef.outputs self);
  p ← view_params h (DefinitionRef.params self);
  Some (TaskDefinition.mk i o p (DefinitionRef.name self)).

Definition view_validated (h : heap) (v : ValidatedRef.t)
  : option ValidatedTaskDefinition.t :=
  p ← view_params h (ValidatedRef.params v);
  i ← view_set h (ValidatedRef.inputs v);
  o ← view_set h (ValidatedRef.outputs v);
  Some (ValidatedTaskDefinition.mk (ValidatedRef.name v) p i o).

(** The outcome of a run as a caller sees it: the exception, or the
    returned record with the contents of its sets and dictionaries. *)
Definition observe (h : heap) (r : result ValidatedRef.t)
  : option (result ValidatedTaskDefinition.t) :=
  match r with
  | Ok v => Ok <$> view_validated h v
  | Raise e => Some (Raise e)
  end.
End Store.

(** ** Sample inputs *)

(** A project directory with one file, [tasks.py], that defines [run]. *)
Definition run_callable : callable := mk_callable "run" ["tracker"; "x"].

Definition project_fs : FileSystem :=
  mk_fs (fun p => String.eqb p "tasks.py")
        (fun p => if String.eqb p "tasks.py" then Some [("run", run_callable)] else None).

Definition run_schema : TaskSchema.t :=
  TaskSchema.mk {["x"]} {["y"]} None "tasks.py:run".

Definition run_definition : TaskDefinition.t :=
  TaskDefinition.mk {["x"]} {["y"]} None "run".

Definition no_symbol_schema : TaskSchema.t :=
  TaskSchema.mk {["x"]} {["y"]} None "tasks.py:".

Definition outputs_ab : ValidatedTaskDefinition.t :=
  ValidatedTaskDefinition.mk "train" None {["x"]} {["a"; "b"]}.

(** A result that lacks the declared [b] and has the undeclared [zz]. *)
Definition result_a_zz : dict := [("a", VInt 1); ("zz", VInt 2)].
Definition result_a_b : dict := [("a", VInt 1); ("b", VInt 2)].

Definition run_task : Task.t := Task.mk "run" run_callable None.

(** A parameter model that accepts every mapping. *)
Definition any_params : ParamSchema := mk_param_schema (fun raw => Some raw).
Definition tuned_task : Task.t := Task.mk "run" run_callable (Some any_params).
Definition empty_params_definition : TaskDefinition.t :=
  TaskDefinition.mk {["x"]} {["y"]} (Some []) "run".

Definition learning_rate_definition : TaskDefinition.t :=
  TaskDefinition.mk {["x"]} {["y"]} (Some [("lr", VInt 1)]) "run".
Definition params_input_definition : TaskDefinition.t :=
  TaskDefinition.mk {["x"; "params"]} {["y"]} None "run".

(** The experiment of one task with [params = {x: 1}] and [inputs = {y}]. *)
Definition stray_parameter_experiment : ExperimentSchema.t :=
  ExperimentSchema.mk
    [("train", TaskSchema.mk {["y"]} {["out"]} (Some [("x", VInt 1)]) "tasks.py:run")].

(** A store that holds the two sets of [run_definition]. *)
Definition run_store : Store.heap :=
  {[ 1%positive := Store.PySet {["x"]}; 2%positive := Store.PySet {["y"]} ]}.
Definition run_definition_ref : Store.DefinitionRef.t :=
  Store.DefinitionRef.mk 1 2 None "run".

(** * The version bumping tool ([tools/bump.py])

    A character is a Python code point below 256. On these, the pattern
    classes [\d] and [\s] and [str.isspace] are the sets below. A file is
    its text as Python reads it in text mode, and [str] of a [Version] is
    what pydantic prints for a model: its fields, [name=repr], separated
    by spaces. *)

Module Bump.

Definition dquote : ascii := "034"%char.
Definition newline : ascii := "010"%char.

Definition isdigit (c : ascii) : bool :=
  let n := nat_of_ascii c in (48 <=? n)%nat && (n <=? 57)%nat.

Definition isspace (c : ascii) : bool :=
  let n := nat_of_ascii c in
  ((9 <=? n)%nat && (n <=? 13)%nat) || ((28 <=? n)%nat && (n <=? 32)%nat)
  || (n =? 133)%nat || (n =? 160)%nat.

(** ** The fragment of [re] the two patterns use *)

Inductive cls : Type := digit | space.

Definition in_cls (k : cls) (c : ascii) : bool :=
  match k with
  | digit => isdigit c
  | space => isspace c
  end.

Inductive regex : Type :=
| Eps
| Bol                          (* ^ *)
| Eol                          (* $ *)
| Chr (c : ascii)
| Star (k : cls)               (* \s* *)
| Plus (k : cls)               (* \d+ *)
| Cat (a b : regex)
| Opt (a : regex)              (* (...)? *)
| Group (n : nat) (a : regex). (* the n-th capturing group *)

Abbreviation groups := (gmap nat string).

(** The text between the input [s] and what is left of it, [s']. *)
Definition consumed (s s' : string) : string :=
  substring 0 (String.length s - String.length s') s.

(** A greedy repetition of a class: the longest run first, then shorter
    ones when the rest of the pattern fails. *)
Fixpoint many {A : Type} (k : cls) (pos : nat) (s : string)
    (cont : nat -> string -> option A) : option A :=
  match s with
  | String c s' =>
      if in_cls k c then
        match many k (S pos) s' cont with
        | Some r => Some r
        | None => cont pos s
        end
      else cont pos s
  | EmptyString => cont pos s
  end.

(** Backtracking matching from position [pos], where [s] is the input left;
    [cont] is the rest of the pattern. Without the MULTILINE flag [^] holds
    at position 0 only and [$] at the end or before a final newline. *)
Fixpoint exec (r : regex) (pos : nat) (s : string) (g : groups)
    (cont : nat -> string -> groups -> option groups) : option groups :=
  match r with
  | Eps => cont pos s g
  | Bol => if (pos =? 0)%nat then cont pos s g else None
  | Eol =>
      match s with
      | EmptyString => cont pos s g
      | String c EmptyString => if Ascii.eqb c newline then cont pos s g else None
      | _ => None
      end
  | Chr c =>
      match s with
      | String c' s' => if Ascii.eqb c c' then cont (S pos) s' g else None
      | EmptyString => None
      end
  | Star k => many k pos s (fun pos' s' => cont pos' s' g)
  | Plus k =>
      match s with
      | String c s' =>
          if in_cls k c then many k (S pos) s' (fun pos' s' => cont pos' s' g) else None
      | EmptyString => None
      end
  | Cat a b => exec a pos s g (fun pos' s' g' => exec b pos' s' g' cont)
  | Opt a =>
      match exec a pos s g cont with
      | Some r => Some r
      | None => cont pos s g
      end
  | Group n a =>
      exec a pos s g (fun pos' s' g' => cont pos' s' (<[n := consumed s s']> g'))
  end.

(** [pattern.match(s)]: the groups of the match, if there is one. *)
Definition re_match (r : regex) (s : string) : option groups :=
  exec r 0 s ∅ (fun _ _ g => Some g).

Fixpoint lit (s : string) : regex :=
  match s with
  | EmptyString => Eps
  | String c s' => Cat (Chr c) (lit s')
  end.

Fixpoint seq (rs : list regex) : regex :=
  match rs with
  | [] => Eps
  | r :: rs' => Cat r (seq rs')
  end.

(** [^(\d+)\.(\d+)\.(\d+)(-rc\.(\d+))?$] *)
Definition STANDALONE_SEMVER_REGEX : regex :=
  seq [ Bol;
        Group 1 (Plus digit); Chr "."; Group 2 (Plus digit); Chr ".";
        Group 3 (Plus digit);
        Opt (Group 4 (Cat (lit "-rc.") (Group 5 (Plus digit))));
        Eol ].

(** [^version\s*=\s*\"(\d+)\.(\d+)\.(\d+)(-rc\.(\d+))?\"$] *)
Definition PREFIXED_SEMVER_REGEX : regex :=
  seq [ Bol; lit "version"; Star space; Chr "="; Star space; Chr dquote;
        Group 1 (Plus digit); Chr "."; Group 2 (Plus digit); Chr ".";
        Group 3 (Plus digit);
        Opt (Group 4 (Cat (lit "-rc.") (Group 5 (Plus digit))));
        Chr dquote; Eol ].

(** ** Exceptions and outcomes *)

Inductive error : Type :=
| BadParameter (msg : string)
| ValueError (msg : string)
| TypeError (msg : string)
| FileNotFoundError (path : string)
| IsADirectoryError (path : string).

Inductive outcome (A : Type) : Type :=
| Return (a : A)
| Throw (e : error).

Arguments Return {A} a.
Arguments Throw {A} e.

#[global] Instance outcome_bind : MBind outcome :=
  fun A B (k : A -> outcome B) (r : outcome A) =>
    match r with
    | Return a => k a
    | Throw e => Throw e
    end.

(** ** Integers and their decimal text

    CPython refuses to convert between [int] and a decimal text of more
    than [sys.get_int_max_str_digits()] digits, 4300 unless reconfigured. *)

Definition int_max_str_digits : nat := 4300.

(** [int(s)] for the text of a group: [None] (a group that did not take
    part) is a [TypeError]; the groups that did are runs of digits. *)
Definition int (s : option string) : outcome Z :=
  match s with
  | None => Throw (TypeError "int() argument must be a string, not 'NoneType'")
  | Some s =>
      if (int_max_str_digits <? String.length s)%nat then
        Throw (ValueError "Exceeds the limit for integer string conversion")
      else
        match NilZero.uint_of_string s with
        | Some d => Return (Z.of_uint d)
        | None => Throw (ValueError "invalid literal for int() with base 10")
        end
  end.

(** [repr(z)] *)
Definition repr_int (z : Z) : outcome string :=
  let digits := NilZero.string_of_uint (N.to_uint (Z.abs_N z)) in
  if (int_max_str_digits <? String.length digits)%nat then
    Throw (ValueError "Exceeds the limit for integer string conversion")
  else Return (if (z <? 0)%Z then String "-" digits else digits).

(** ** [Version] and [BumpType] *)

Inductive BumpType : Type := MAJOR | MINOR | PATCH | RC.

Record Version : Type := mk_version {
  major : Z;
  minor : Z;
  patch : Z;
  rc : option Z;
}.

#[global] Instance Version_eq_dec : EqDecision Version.
Proof. solve_decision. Defined.

(** [Version.scan], bump.py lines 49-53. A match object is always true, so
    [a or b] is [a] whenever the first pattern matches. *)
Definition scan (version_str : string) : option groups :=
  match re_match STANDALONE_SEMVER_REGEX version_str with
  | Some m => Some m
  | None => re_match PREFIXED_SEMVER_REGEX version_str
  end.

(** [Version.from_string], bump.py lines 36-47. *)
Definition from_string (version_str : string) : outcome (option Version) :=
  match scan version_str with
  | None => Return None
  | Some m =>
      let major := m !! 1%nat in
      let minor := m !! 2%nat in
      let patch := m !! 3%nat in
      let rc := m !! 5%nat in
      major ← int major;
      minor ← int minor;
      patch ← int patch;
      rc ← match rc with
           | Some (String c s) => r ← int (Some (String c s)); Return (Some r)
           | _ => Return None
           end;
      Return (Some (mk_version major minor patch rc))
  end.

(** [Version.bump], bump.py lines 55-68. [model_copy(update=...)] replaces
    the listed fields and keeps the others. *)
Definition bump (self : Version) (which : BumpType) : Version :=
  match which with
  | MAJOR => mk_version (major self + 1) 0 0 None
  | MINOR => mk_version (major self) (minor self + 1) 0 None
  | PATCH => mk_version (major self) (minor self) (patch self + 1) None
  | RC =>
      mk_version (major self) (minor self) (patch self)
        (Some ((match rc self with
                | Some r => if (r =? 0)%Z then 0 else r
                | None => 0
                end) + 1)%Z)
  end.

(** [str(version)]: pydantic prints a model as its fields, [name=repr]
    joined by spaces. *)
Definition str (self : Version) : outcome string :=
  a ← repr_int (major self);
  b ← repr_int (minor self);
  c ← repr_int (patch self);
  d ← match rc self with
       | Some r => repr_int r
       | None => Return "None"
       end;
  Return ("major=" +:+ a +:+ " minor=" +:+ b +:+ " patch=" +:+ c +:+ " rc=" +:+ d).

(** ** Text files *)

(** [s.strip()] *)
Fixpoint lstrip (s : string) : string :=
  match s with
  | String c s' => if isspace c then lstrip s' else s
  | EmptyString => EmptyString
  end.

Fixpoint rstrip (s : string) : string :=
  match s with
  | String c s' =>
      match rstrip s' with
      | EmptyString => if isspace c then EmptyString else String c EmptyString
      | r => String c r
      end
  | EmptyString => EmptyString
  end.

Definition strip (s : string) : string := rstrip (lstrip s).

(** [file.readlines()] on the text of a file opened in text mode: the lines
    with their newline, the last one possibly without. *)
Fixpoint readlines (text : string) : list string :=
  match text with
  | EmptyString => []
  | String c rest =>
      if Ascii.eqb c newline then String c EmptyString :: readlines rest
      else match readlines rest with
           | [] => [String c EmptyString]
           | line :: lines => String c line :: lines
           end
  end.

(** [file.writelines(lines)] writes the lines one after the other. *)
Definition writelines (lines : list string) : string := String.concat "" lines.

(** A path names a text file, with its text as Python reads it in text
    mode, or a directory. *)
Inductive node : Type :=
| File (text : string)
| Dir.

Abbreviation filesystem := (gmap string node).

Definition open_read (fs : filesystem) (file_path : string) : outcome string :=
  match fs !! file_path with
  | Some (File text) => Return text
  | Some Dir => Throw (IsADirectoryError file_path)
  | None => Throw (FileNotFoundError file_path)
  end.

Definition is_match (line : string) : bool :=
  match scan line with
  | Some _ => true
  | None => false
  end.

(** [get_version_from_file], bump.py lines 71-78: [next] takes the first
    line that scans and only then calls [from_string] on it. *)
Definition get_version_from_file (fs : filesystem) (file_path : string)
  : outcome (option Version) :=
  text ← open_read fs file_path;
  let lines := map strip (readlines text) in
  match List.find is_match lines with
  | Some line => from_string line
  | None => Return None
  end.

(** [update_version_in_file], bump.py lines 81-90. *)
Definition update_version_in_file (fs : filesystem) (file_path : string)
    (new_version : Version) : outcome filesystem :=
  shown ← str new_version;
  let new_version_str := "version = " +:+ String dquote (shown +:+ String dquote "") in
  text ← open_read fs file_path;
  let lines := map strip (readlines text) in
  let lines := map (fun line => if is_match line then new_version_str else line) lines in
  Return (<[file_path := File (writelines lines)]> fs).

(** The two files of [Files], in the order of its fields. *)
Definition files : list string := ["src/yoot/__version__.py"; "pyproject.toml"].

Section main.
(** [project_dir / file] *)
Variable joinpath : string -> string -> string.

(** What a run leaves behind: the files and the lines printed. *)
Record world : Type := mk_world {
  fs : filesystem;
  printed : list string;
}.

(** The loop of [main], bump.py lines 105-130, from an iteration on. *)
Fixpoint main_loop (project_dir : string) (bump_type : BumpType)
    (todo : list string) (current_version new_version : option Version)
    (w : world) : outcome unit * world :=
  match todo with
  | [] => (Return tt, w)
  | file :: todo' =>
      let file_path := joinpath project_dir file in
      if bool_decide (fs w !! file_path = None) then
        (Throw (BadParameter ("[bold red]File " +:+ file_path
                                +:+ " does not exist.[/bold red]")), w)
      else
        match get_version_from_file (fs w) file_path with
        | Throw e => (Throw e, w)
        | Return this_files_version =>
            let current_version :=
              match this_files_version, current_version with
              | Some v, None => Some v
              | _, _ => current_version
              end in
            let new_version :=
              match this_files_version, new_version, current_version with
              | Some _, None, Some c => Some (bump c bump_type)
              | _, _, _ => new_version
              end in
            if bool_decide (current_version ≠ this_files_version) then
              (Throw (BadParameter ("[bold red]File " +:+ file
                        +:+ " has a different version from the others.[/bold red]")), w)
            else
              match new_version with
              | None =>
                  (Throw (BadParameter ("[bold red]Could not find a version in "
                                          +:+ file +:+ ".[/bold red]")), w)
              | Some new =>
                  match update_version_in_file (fs w) file_path new with
                  | Throw e => (Throw e, w)
                  | Return fs' =>
                      match str new with
                      | Throw e => (Throw e, mk_world fs' (printed w))
                      | Return shown =>
                          main_loop project_dir bump_type todo' current_version new_version
                            (mk_world fs'
                               (printed w ++ ["[bold green]Bumped " +:+ file +:+ " version "
                                                +:+ shown +:+ "[/bold green]"]))
                      end
                  end
              end
        end
  end.

(** [main], bump.py lines 93-130. *)
Definition main (project_dir : string) (bump_type : BumpType) (w : world)
  : outcome unit * world :=
  main_loop project_dir bump_type files None None w.
End main.
End Bump.

Module BumpSpec.
Import Bump.

(** Every character of [w] is in the class [k]. *)
Fixpoint all_cls (k : cls) (w : string) : bool :=
  match w with
  | EmptyString => true
  | String c w' => in_cls k c && all_cls k w'
  end.

(** [den r pos w rest g g']: at position [pos], with [w +:+ rest] left of the
    input, the pattern [r] can take the text [w] and turn the groups [g]
    into [g']. *)
Fixpoint den (r : regex) (pos : nat) (w rest : string) (g g' : groups) : Prop :=
  match r with
  | Eps => w = "" /\ g' = g
  | Bol => pos = 0%nat /\ w = "" /\ g' = g
  | Eol => w = "" /\ (rest = "" \/ rest = String newline "") /\ g' = g
  | Chr c => w = String c "" /\ g' = g
  | Star k => all_cls k w = true /\ g' = g
  | Plus k => w ≠ "" /\ all_cls k w = true /\ g' = g
  | Cat a b =>
      exists w1 w2 g1,
        w = w1 +:+ w2
        /\ den a pos w1 (w2 +:+ rest) g g1
        /\ den b (pos + String.length w1) w2 rest g1 g'
  | Opt a => den a pos w rest g g' \/ (w = "" /\ g' = g)
  | Group n a => exists g1, den a pos w rest g g1 /\ g' = <[n := w]> g1
  end.

(** A run of digits, as [\d+] takes it. *)
Definition numeral (d : string) : Prop := d ≠ "" /\ all_cls digit d = true.

(** [M.m.p] or [M.m.p-rc.r] *)
Definition semver (d1 d2 d3 : string) (d5 : option string) : string :=
  d1 +:+ "." +:+ d2 +:+ "." +:+ d3
     +:+ match d5 with Some d => "-rc." +:+ d | None => "" end.

(** The groups of a match on [semver d1 d2 d3 d5]. *)
Definition semver_groups (d1 d2 d3 : string) (d5 : option string) : groups :=
  let g := <[3%nat := d3]> (<[2%nat := d2]> (<[1%nat := d1]> ∅)) in
  match d5 with
  | Some d => <[4%nat := "-rc." +:+ d]> (<[5%nat := d]> g)
  | None => g
  end.

Definition numerals (d1 d2 d3 : string) (d5 : option string) : Prop :=
  numeral d1 /\ numeral d2 /\ numeral d3
  /\ match d5 with Some d => numeral d | None => True end.

Definition final_newline (nl : string) : Prop := nl = "" \/ nl = String newline "".

(** The texts the first pattern matches, and those the second matches. *)
Definition standalone_text (s : string) (d1 d2 d3 : string) (d5 : option string) : Prop :=
  exists nl, numerals d1 d2 d3 d5 /\ final_newline nl /\ s = semver d1 d2 d3 d5 +:+ nl.

Definition prefixed_text (s : string) (d1 d2 d3 : string) (d5 : option string) : Prop :=
  exists ws1 ws2 nl,
    all_cls space ws1 = true /\ all_cls space ws2 = true
    /\ numerals d1 d2 d3 d5 /\ final_newline nl
    /\ s = "version" +:+ ws1 +:+ "=" +:+ ws2
             +:+ String dquote (semver d1 d2 d3 d5 +:+ String dquote nl).

(** The number a numeral stands for, and the decimal text of a natural
    number. *)
Definition value (d : string) : Z :=
  match NilZero.uint_of_string d with
  | Some u => Z.of_uint u
  | None => 0
  end.

Definition dec (n : N) : string := NilZero.string_of_uint (N.to_uint n).

(** Short enough for CPython to convert. *)
Definition short (d : string) : Prop := (String.length d <= int_max_str_digits)%nat.

Definition all_short (d1 d2 d3 : string) (d5 : option string) : Prop :=
  short d1 /\ short d2 /\ short d3
  /\ match d5 with Some d => short d | None => True end.

(** The longest run of class [k] at the start of [s], and what follows. *)
Fixpoint span (k : cls) (s : string) : string * string :=
  match s with
  | String c s' =>
      if in_cls k c then let '(a, b) := span k s' in (String c a, b)
      else ("", s)
  | EmptyString => ("", "")
  end.

(** [s] does not start with a character of class [k]. *)
Definition stops (k : cls) (s : string) : bool :=
  match s with
  | String c _ => negb (in_cls k c)
  | EmptyString => true
  end.

(** What may follow a version number: nothing, or a character that is
    neither a digit nor [-]. *)
Definition after_version (t : string) : bool :=
  match t with
  | String c _ => negb (in_cls digit c) && negb (Ascii.eqb c "-")
  | EmptyString => true
  end.

(** A newline, if any, is the last character: the shape of a line that
    [readlines] returns. *)
Fixpoint newline_last (s : string) : bool :=
  match s with
  | EmptyString => true
  | String c EmptyString => true
  | String c s' => negb (Ascii.eqb c newline) && newline_last s'
  end.

(** [occurs c s]: the character [c] is in [s]. *)
Fixpoint occurs (c : ascii) (s : string) : bool :=
  match s with
  | EmptyString => false
  | String c' s' => Ascii.eqb c c' || occurs c s'
  end.

(** The line [update_version_in_file] puts in place of a version line. *)
Definition version_line (shown : string) : string :=
  "version = " +:+ String dquote (shown +:+ String dquote "").

(** The messages of [main]. *)
Definition msg_bumped (file shown : string) : string :=
  "[bold green]Bumped " +:+ file +:+ " version " +:+ shown +:+ "[/bold green]".
Definition msg_does_not_exist (file_path : string) : string :=
  "[bold red]File " +:+ file_path +:+ " does not exist.[/bold red]".
Definition msg_different_version (file : string) : string :=
  "[bold red]File " +:+ file +:+ " has a different version from the others.[/bold red]".
Definition msg_no_version (file : string) : string :=
  "[bold red]Could not find a version in " +:+ file +:+ ".[/bold red]".

(** How much of a version a bump type resets: the finer ones are
    absorbed by the coarser. *)
Definition rank (which : BumpType) : nat :=
  match which with
  | RC => 0
  | PATCH => 1
  | MINOR => 2
  | MAJOR => 3
  end.

Definition version_file : string := "src/yoot/__version__.py".
Definition pyproject_file : string := "pyproject.toml".
End BumpSpec.

(** ** More sample inputs *)

(** A project with version 1.2.3 in both files, joined to its directory
    with a slash. *)
Definition slash (project_dir file : string) : string := project_dir +:+ "/" +:+ file.

Definition line_feed : string := String Bump.newline "".

Definition version_py_text : string :=
  "# version" +:+ line_feed
    +:+ "  " +:+ BumpSpec.version_line "1.2.3" +:+ line_feed.

Definition pyproject_text : string :=
  "[project]" +:+ line_feed
    +:+ BumpSpec.version_line "1.2.3" +:+ line_feed
    +:+ "name = yoot" +:+ line_feed.

Definition project_files : Bump.filesystem :=
  {[ "proj/src/yoot/__version__.py" := Bump.File version_py_text;
     "proj/pyproject.toml" := Bump.File pyproject_text ]}.

Definition project_world : Bump.world := Bump.mk_world project_files [].

Definition v123 : Bump.Version := Bump.mk_version 1 2 3 None.

(** The same project with another version in [pyproject.toml], and one
    whose version file has no version line. *)
Definition mismatched_world : Bump.world :=
  Bump.mk_world
    (<["proj/pyproject.toml" := Bump.File (BumpSpec.version_line "2.0.0" +:+ line_feed)]>
       project_files) [].

Definition unversioned_world : Bump.world :=
  Bump.mk_world
    (<["proj/src/yoot/__version__.py" := Bump.File ("# nothing here" +:+ line_feed)]>
       project_files) [].

(** Sample tasks for the task module. *)
Definition run_callable_reordered : callable := mk_callable "run" ["x"; "tracker"].
Definition nameless : callable := mk_callable "train" ["x"].
Definition stray_task : TaskSchema.t :=
  TaskSchema.mk {["a"; "y"]} {["out"]}
    (Some [("a", VInt 1); ("x", VInt 2); ("z", VInt 3)]) "tasks.py:run".


(** A parameter model that rejects every mapping. *)
Definition no_params : ParamSchema := mk_param_schema (fun _ => None).
Definition strict_task : Task.t := Task.mk "run" run_callable (Some no_params).

(** * Properties *)

(** ** Strings and loops *)

Lemma append_inj_r (p s1 s2 : string) : p +:+ s1 = p +:+ s2 -> s1 = s2.
Proof.
  induction p as [|c p IH]; simpl; [done|].
  intros [= H]. by apply IH.
Qed.

Lemma split_colon_length (s : string) : length (split_colon s) = S (colons s).
Proof.
  induction s as [|c rest IH]; simpl; [done|].
  destruct (Ascii.eqb c ":"%char); simpl.
  - by rewrite IH.
  - destruct (split_colon rest) as [|piece pieces] eqn:E; simpl in *; lia.
Qed.

Lemma for_each_ok {A} (xs : list A) (body : A -> result unit) :
  for_each xs body = Ok tt <-> forall x, x ∈ xs -> body x = Ok tt.
Proof.
  induction xs as [|x rest IH]; simpl.
  - split; [|done]. intros _ x Hx. by apply elem_of_nil in Hx.
  - unfold mbind, result_bind. destruct (body x) as [[]|e] eqn:E.
    + rewrite IH. split.
      * intros H y [->|Hy]%elem_of_cons; auto.
      * intros H y Hy. apply H. by right.
    + split; [done|]. intros H. specialize (H x (list_elem_of_here _ _)). congruence.
Qed.

Lemma for_each_raise {A} (xs : list A) (body : A -> result unit) (e : exn) :
  for_each xs body = Raise e -> exists x, x ∈ xs /\ body x = Raise e.
Proof.
  induction xs as [|x rest IH]; simpl; [done|].
  unfold mbind, result_bind. destruct (body x) as [[]|e'] eqn:E.
  - intros (y & Hy & Hb)%IH. exists y. split; [by right|done].
  - intros [= ->]. exists x. split; [by left|done].
Qed.

Lemma result_unit_cases (r : result unit) : r = Ok tt \/ exists e, r = Raise e.
Proof. destruct r as [[]|e]; eauto. Qed.

(** ** The output contract *)

Section output_contract.
Import ValidatedTaskDefinition.

Variable set_iter : gset string -> list string.
Hypothesis set_iter_perm : forall s, set_iter s ≡ₚ elements s.

Lemma set_iter_singleton (x : string) : set_iter {[x]} = [x].
Proof.
  apply Permutation_singleton_r. rewrite set_iter_perm.
  by rewrite elements_singleton.
Qed.

Lemma validate_outputs_ok (self : t) (outs : dict) :
  validate_outputs set_iter self outs = Ok tt <-> key_set outs = outputs self.
Proof.
  unfold validate_outputs. repeat case_bool_decide; split; try done.
  - intros Heq. exfalso. set_solver.
  - intros Heq. exfalso. set_solver.
  - intros _. apply set_eq. intros x. split; intros Hx.
    + destruct (decide (x ∈ outputs self)); [done|]. set_solver.
    + destruct (decide (x ∈ key_set outs)); [done|]. set_solver.
Qed.

Lemma validate_outputs_missing (self : t) (outs : dict) :
  outputs self ∖ key_set outs ≠ ∅ ->
  validate_outputs set_iter self outs =
    Raise (TaskDefinitionError
             ("Task is missing expected outputs: "
                +:+ join ", " (set_iter (outputs self ∖ key_set outs)) +:+ ".")).
Proof. intros H. unfold validate_outputs. by rewrite bool_decide_true. Qed.

Lemma validate_outputs_extra (self : t) (outs : dict) :
  outputs self ∖ key_set outs = ∅ ->
  key_set outs ∖ outputs self ≠ ∅ ->
  validate_outputs set_iter self outs =
    Raise (TaskDefinitionError
             ("Task has unexpected outputs: "
                +:+ join ", " (set_iter (key_set outs ∖ outputs self)) +:+ ".")).
Proof.
  intros H1 H2. unfold validate_outputs.
  rewrite bool_decide_false by (intros H; by apply H).
  by rewrite bool_decide_true.
Qed.

(** C3. [validate_outputs] returns normally exactly when the keys of the
    result mapping are the declared outputs; every other mapping raises
    [TaskDefinitionError]. With declared outputs [{a, b}]: keys [{a}]
    raise reporting [b] missing, keys [{a, b, c}] raise reporting [c]
    unexpected, keys [{a, b}] pass. *)
Theorem validate_outputs_exact_set :
  (forall (self : t) (outs : dict),
      (validate_outputs set_iter self outs = Ok tt <-> key_set outs = outputs self)
      /\ (key_set outs ≠ outputs self ->
          exists msg, validate_outputs set_iter self outs = Raise (TaskDefinitionError msg)))
  /\ (forall (self : t) (outs : dict),
        outputs self = {["a"; "b"]} ->
        (key_set outs = {["a"]} ->
         validate_outputs set_iter self outs =
           Raise (TaskDefinitionError "Task is missing expected outputs: b."))
        /\ (key_set outs = {["a"; "b"; "c"]} ->
            validate_outputs set_iter self outs =
              Raise (TaskDefinitionError "Task has unexpected outputs: c."))
        /\ (key_set outs = {["a"; "b"]} ->
            validate_outputs set_iter self outs = Ok tt)).
Proof.
  assert (Hab : "a" ≠ "b") by done.
  assert (Hac : "a" ≠ "c") by done.
  assert (Hbc : "b" ≠ "c") by done.
  split.
  - intros self outs. split; [apply validate_outputs_ok|].
    intros Hne.
    destruct (decide (outputs self ∖ key_set outs = ∅)) as [Hm|Hm].
    + destruct (decide (key_set outs ∖ outputs self = ∅)) as [Hx|Hx].
      * exfalso. apply Hne. apply set_eq. intros x. split; intros Hin.
        -- destruct (decide (x ∈ outputs self)); [done|]. set_solver.
        -- destruct (decide (x ∈ key_set outs)); [done|]. set_solver.
      * eexists. by apply validate_outputs_extra.
    + eexists. by apply validate_outputs_missing.
  - intros self outs Hdecl. repeat split; intros Hkeys.
    + rewrite validate_outputs_missing; rewrite Hdecl, Hkeys.
      * replace ({["a"; "b"]} ∖ {["a"]} : gset string) with ({["b"]} : gset string)
          by set_solver.
        by rewrite set_iter_singleton.
      * set_solver.
    + rewrite validate_outputs_extra; rewrite Hdecl, Hkeys.
      * replace ({["a"; "b"; "c"]} ∖ {["a"; "b"]} : gset string)
          with ({["c"]} : gset string) by set_solver.
        by rewrite set_iter_singleton.
      * set_solver.
      * set_solver.
    + apply validate_outputs_ok. by rewrite Hdecl, Hkeys.
Qed.

(** C7, as the code has it. When a declared output is missing, the failure
    is the missing-outputs error alone: its message lists the missing
    outputs and is the same whatever undeclared keys the mapping has. *)
Theorem validate_outputs_missing_first (self : t) (outs : dict) :
  outputs self ∖ key_set outs ≠ ∅ ->
  key_set outs ∖ outputs self ≠ ∅ ->
  validate_outputs set_iter self outs =
    Raise (TaskDefinitionError
             ("Task is missing expected outputs: "
                +:+ join ", " (set_iter (outputs self ∖ key_set outs)) +:+ ".")).
Proof. intros Hm _. by apply validate_outputs_missing. Qed.
End output_contract.

(** ** The experiment aggregate *)

Section experiment.
Import ExperimentSchema.

(** What the loop body of [validate] does for one entry. *)
Lemma validate_entry_ok (self : t) :
  validate self = Ok tt <->
  forall name task, (name, task) ∈ tasks self -> ~ violates task.
Proof.
  unfold validate. rewrite for_each_ok. split.
  - intros H name task Hin. specialize (H _ Hin). lazy beta iota in H.
    repeat case_bool_decide; try done.
    intros [Hv|[Hv|(param & Hk & Hni)]]; [done|done|].
    unfold declared_keys in Hk.
    destruct (TaskSchema.params task) as [[|kv raw]|]; try by apply elem_of_nil in Hk.
    pose proof (proj1 (for_each_ok _ _) H param Hk) as Hp. simpl in Hp.
    by rewrite bool_decide_true in Hp.
  - intros H [name task] Hin. specialize (H _ _ Hin). lazy beta iota.
    repeat case_bool_decide.
    + exfalso. apply H. by left.
    + exfalso. apply H. right. by left.
    + destruct (TaskSchema.params task) as [[|kv raw]|] eqn:Ep; try done.
      apply for_each_ok. intros param Hk. case_bool_decide; [|done].
      exfalso. apply H. right. right. exists param. split; [|done].
      unfold declared_keys. by rewrite Ep.
Qed.

Lemma validate_entry_raise (self : t) (e : exn) :
  validate self = Raise e ->
  exists name task,
    (name, task) ∈ tasks self
    /\ ((TaskSchema.inputs task = ∅
         /\ e = ValueError ("Task " +:+ name +:+ " has no inputs."))
        \/ (TaskSchema.outputs task = ∅
            /\ e = ValueError ("Task " +:+ name +:+ " has no outputs."))
        \/ (exists param,
              param ∈ declared_keys task /\ (param ∉ TaskSchema.inputs task)
              /\ e = ValueError ("Task " +:+ name +:+ " has a parameter " +:+ param
                                    +:+ " that is not an input."))).
Proof.
  unfold validate. intros ([name task] & Hin & Hb)%for_each_raise.
  exists name, task. split; [done|]. lazy beta iota in Hb.
  repeat case_bool_decide.
  - left. split; [done|]. congruence.
  - right. left. split; [done|]. congruence.
  - right. right.
    destruct (TaskSchema.params task) as [[|kv raw]|] eqn:Ep; try done.
    apply for_each_raise in Hb as (param & Hk & Hb).
    case_bool_decide; [|done].
    exists param. unfold declared_keys. rewrite Ep. split; [done|].
    split; [done|]. congruence.
Qed.

(** C6. [validate] raises exactly when some task of the collection has no
    inputs, no outputs, or a declared parameter key outside its inputs;
    the error is a [ValueError] whose message names a task that breaks a
    rule, the rule, and for the parameter rule the key. A task with
    [params = {x: 1}] and [inputs = {y}] fails naming the task and [x]. *)
Theorem experiment_validate_rules :
  (forall self : t,
      ((exists e, validate self = Raise e) <->
       (exists name task, (name, task) ∈ tasks self /\ violates task))
      /\ (forall e, validate self = Raise e ->
          exists name task,
            (name, task) ∈ tasks self
            /\ ((TaskSchema.inputs task = ∅
                 /\ e = ValueError ("Task " +:+ name +:+ " has no inputs."))
                \/ (TaskSchema.outputs task = ∅
                    /\ e = ValueError ("Task " +:+ name +:+ " has no outputs."))
                \/ (exists param,
                      param ∈ declared_keys task /\ (param ∉ TaskSchema.inputs task)
                      /\ e = ValueError ("Task " +:+ name +:+ " has a parameter "
                                            +:+ param +:+ " that is not an input.")))))
  /\ (forall (name func : string) (outs : gset string),
        outs ≠ ∅ ->
        validate (mk [(name, TaskSchema.mk {["y"]} outs (Some [("x", VInt 1)]) func)])
        = Raise (ValueError ("Task " +:+ name +:+ " has a parameter x that is not an input."))).
Proof.
  split.
  - intros self. split; [split|].
    + intros [e He]. destruct (validate_entry_raise _ _ He) as (name & task & Hin & Hc).
      exists name, task. split; [done|]. unfold violates.
      destruct Hc as [[? _]|[[? _]|(param & ? & ? & _)]]; eauto.
    + intros (name & task & Hin & Hv).
      destruct (result_unit_cases (validate self)) as [Hok|He]; [|done].
      exfalso. by eapply validate_entry_ok.
    + apply validate_entry_raise.
  - intros name func outs Hne. unfold validate. simpl.
    rewrite bool_decide_false by set_solver.
    rewrite bool_decide_false by done.
    unfold mbind, result_bind. simpl.
    rewrite bool_decide_true; [done|].
    assert ("x" ≠ "y") by done. set_solver.
Qed.
End experiment.

(** ** Resolving a function reference *)

Section resolver.
Import ValidatedTaskSchema.

Lemma split_two (s : string) :
  colons s = 1 -> exists file func_name, split_colon s = [file; func_name].
Proof.
  intros H. pose proof (split_colon_length s) as Hl. rewrite H in Hl.
  destruct (split_colon s) as [|file [|func_name [|? ?]]]; try done. eauto.
Qed.

Lemma split_no_colon (s : string) : colons s = 0 -> split_colon s = [s].
Proof.
  induction s as [|c rest IH]; simpl; [done|].
  destruct (Ascii.eqb c ":"%char); [done|].
  intros H. by rewrite IH.
Qed.

Lemma split_reference (file symbol : string) :
  colons file = 0 -> colons symbol = 0 ->
  split_colon (file +:+ ":" +:+ symbol) = [file; symbol].
Proof.
  induction file as [|c rest IH]; simpl; intros Hf Hs.
  - by rewrite split_no_colon.
  - destruct (Ascii.eqb c ":"%char); [done|].
    by rewrite IH.
Qed.

(** The keyword arguments line 36 passes never include [name]. *)
Lemma init_without_name (fs : FileSystem) (schema : TaskSchema.t) (file func_name : string) :
  init fs (("file", VPath file) :: ("func_name", VStr func_name)
             :: TaskSchema.model_dump schema) = None.
Proof.
  unfold init. replace (field_name _) with (@None string) by reflexivity.
  by repeat case_match.
Qed.

Lemma from_unvalidated_raises (fs : FileSystem) (schema : TaskSchema.t) :
  from_unvalidated fs schema =
    if bool_decide (colons (TaskSchema.func schema) = 1)
    then Raise (TaskDefinitionError "Invalid task schema.")
    else Raise (invalid_function_definition (TaskSchema.func schema)).
Proof.
  unfold from_unvalidated. rewrite split_colon_length.
  case_bool_decide as H1; case_bool_decide as H2; try lia; [done|].
  destruct (split_two _ H2) as (file & func_name & ->).
  by rewrite init_without_name.
Qed.

Lemma validate_schema_raises (fs : FileSystem) (self : TaskDefinition.t)
      (schema : TaskSchema.t) :
  TaskDefinition._validate_schema fs self schema =
    if bool_decide (colons (TaskSchema.func schema) = 1)
    then Raise (NameError "file_path")
    else Raise (invalid_function_definition (TaskSchema.func schema)).
Proof.
  unfold TaskDefinition._validate_schema. rewrite split_colon_length.
  case_bool_decide as H1; case_bool_decide as H2; try lia; [done|].
  by destruct (split_two _ H2) as (file & func_name & ->).
Qed.

(** C1, on the code. [tasks.py] exists and defines [run], and the
    reference [tasks.py:run] is well formed, yet [from_unvalidated] raises
    [TaskDefinitionError] (the constructor is given [func_name], not the
    required field [name]) and [_validate_schema] raises [NameError]
    (it reads [file_path], which nothing binds): neither returns. *)
Theorem resolution_of_existing_symbol_fails :
  is_file project_fs "tasks.py" = true
  /\ exec_module project_fs "tasks.py" = Some [("run", run_callable)]
  /\ well_formed_reference (TaskSchema.func run_schema)
  /\ from_unvalidated project_fs run_schema
     = Raise (TaskDefinitionError "Invalid task schema.")
  /\ TaskDefinition._validate_schema project_fs run_definition run_schema
     = Raise (NameError "file_path").
Proof.
  repeat split; try reflexivity.
  exists "tasks.py", "run". by repeat split.
Qed.

(** C4, as the code has it. Both resolvers raise the malformed-reference
    error exactly for the references whose number of [":"] is not one;
    a reference with one [":"] gets past that check, whatever stands on
    either side of it. *)
Theorem malformed_reference_iff_not_one_colon
        (fs : FileSystem) (self : TaskDefinition.t) (schema : TaskSchema.t) :
  (from_unvalidated fs schema = Raise (invalid_function_definition (TaskSchema.func schema))
   <-> colons (TaskSchema.func schema) ≠ 1)
  /\ (TaskDefinition._validate_schema fs self schema
      = Raise (invalid_function_definition (TaskSchema.func schema))
      <-> colons (TaskSchema.func schema) ≠ 1).
Proof.
  rewrite from_unvalidated_raises, validate_schema_raises.
  case_bool_decide as H; split; split; done.
Qed.

(** C4 fails as stated: [tasks.py:] has an empty symbol, so it is not of
    the form [<nonempty>:<nonempty>], but neither resolver raises the
    malformed-reference error for it. *)
Lemma empty_symbol_passes_format_check :
  ~ well_formed_reference (TaskSchema.func no_symbol_schema)
  /\ from_unvalidated project_fs no_symbol_schema
     ≠ Raise (invalid_function_definition (TaskSchema.func no_symbol_schema))
  /\ TaskDefinition._validate_schema project_fs run_definition no_symbol_schema
     ≠ Raise (invalid_function_definition (TaskSchema.func no_symbol_schema)).
Proof.
  split; [|split; by vm_compute].
  intros (file & symbol & Href & Hf & Hs & _ & Hne).
  apply (f_equal split_colon) in Href.
  rewrite split_reference in Href by done.
  vm_compute in Href. congruence.
Qed.
End resolver.

(** ** Validating a definition against a task *)

Section definition_validator.
Import TaskDefinition.

Lemma tracker_in_set (task : Task.t) :
  "tracker" ∈ (list_to_set (fn_parameters (Task.func task)) : gset string)
  <-> "tracker" ∈ fn_parameters (Task.func task).
Proof. apply elem_of_list_to_set. Qed.

(** Every way out of [validate]: a [TaskDefinitionError] or the record. *)
Lemma validate_outcomes (self : t) (task : Task.t) (schema : TaskSchema.t) :
  (exists msg, validate self task schema = Raise (TaskDefinitionError msg))
  \/ (validate self task schema
      = Ok (ValidatedTaskDefinition.mk (name self) (bound_params self task)
                                       (inputs self) (outputs self))
      /\ remaining task = inputs self).
Proof.
  unfold validate, bound_params, remaining.
  case_bool_decide; [eauto|].
  destruct (truthy (params self) && _); [eauto|].
  destruct (bool_decide (params self = None) && _); [eauto|].
  destruct (params self) as [[|kv raw]|], (Task.param_schema task) as [ps|];
    simpl; try (case_bool_decide; [eauto|by right]).
  destruct (parse_obj ps (kv :: raw)); simpl; [|eauto].
  case_bool_decide; [eauto|by right].
Qed.

(** Past the tracker check and the parameter checks, only the comparison
    of the two sets is left. *)
Lemma validate_after_param_checks (self : t) (task : Task.t) (schema : TaskSchema.t) :
  "tracker" ∈ fn_parameters (Task.func task) ->
  param_checks_pass self task ->
  validate self task schema =
    if bool_decide (remaining task ≠ inputs self)
    then Raise (TaskDefinitionError (msg_inputs_mismatch task))
    else Ok (ValidatedTaskDefinition.mk (name self) (bound_params self task)
                                        (inputs self) (outputs self)).
Proof.
  intros Htr%tracker_in_set (Hacc & Hreq & Hparse).
  unfold validate, bound_params, remaining, msg_inputs_mismatch.
  rewrite bool_decide_false by (intros Hn; by apply Hn).
  destruct (params self) as [[|kv raw]|] eqn:Ep, (Task.param_schema task) as [ps|] eqn:Es;
    simpl; try done.
  - specialize (Hparse _ _ eq_refl eq_refl eq_refl).
    destruct (parse_obj ps (kv :: raw)); [done|congruence].
  - exfalso. by apply Hacc.
  - specialize (Hreq eq_refl). congruence.
Qed.

(** C2. When the callable has a [tracker] parameter and the checks on the
    parameter declaration pass, [validate] returns exactly when the
    callable's parameter names without [tracker] and [params] are the
    declared inputs, and any difference raises the inputs-do-not-match
    [TaskDefinitionError]. *)
Theorem validate_iff_inputs_match (self : t) (task : Task.t) (schema : TaskSchema.t) :
  "tracker" ∈ fn_parameters (Task.func task) ->
  param_checks_pass self task ->
  ((exists v, validate self task schema = Ok v) <-> remaining task = inputs self)
  /\ (remaining task = inputs self ->
      validate self task schema
      = Ok (ValidatedTaskDefinition.mk (name self) (bound_params self task)
                                       (inputs self) (outputs self)))
  /\ (remaining task ≠ inputs self ->
      validate self task schema = Raise (TaskDefinitionError (msg_inputs_mismatch task))).
Proof.
  intros Htr Hp. rewrite (validate_after_param_checks _ _ _ Htr Hp).
  case_bool_decide as Hc.
  - repeat split; try done. by intros [v ?].
  - repeat split; try done. eauto.
Qed.

Lemma raise_message_inj {A : Type} (m1 m2 : string) :
  @Raise A (TaskDefinitionError m1) = Raise (TaskDefinitionError m2) -> m1 = m2.
Proof. by intros [= ->]. Qed.

Lemma task_message_inj (task : Task.t) (s1 s2 : string) :
  "Task " +:+ Task.name task +:+ s1 = "Task " +:+ Task.name task +:+ s2 -> s1 = s2.
Proof. intros H. by do 2 apply append_inj_r in H. Qed.

(** C5. A definition with a non-empty parameter mapping bound to a task
    without [param_schema] raises [TaskDefinitionError], and so does a
    definition without parameters bound to a task with a [param_schema].
    The checks run in order after the tracker check, so the message is the
    one of the parameter check whenever the callable has a [tracker]
    parameter. *)
Theorem param_declaration_asymmetry (self : t) (task : Task.t) (schema : TaskSchema.t) :
  (truthy (params self) = true -> Task.param_schema task = None ->
   (exists msg, validate self task schema = Raise (TaskDefinitionError msg))
   /\ ("tracker" ∈ fn_parameters (Task.func task) ->
       validate self task schema
       = Raise (TaskDefinitionError (msg_accepts_no_params task))))
  /\ (params self = None -> Task.param_schema task ≠ None ->
      (exists msg, validate self task schema = Raise (TaskDefinitionError msg))
      /\ ("tracker" ∈ fn_parameters (Task.func task) ->
          validate self task schema
          = Raise (TaskDefinitionError (msg_requires_params task)))).
Proof.
  split.
  - intros Hp Hs. unfold validate. rewrite Hp, Hs. simpl.
    case_bool_decide as Htr; [split; [eauto|]|by eauto].
    intros Hin%tracker_in_set. done.
  - intros Hp Hs. unfold validate. rewrite Hp. simpl.
    rewrite (bool_decide_true (Task.param_schema task ≠ None)) by done.
    case_bool_decide as Htr; [split; [eauto|]|by eauto].
    intros Hin%tracker_in_set. done.
Qed.

(** C9. With [params = {}] and a task that has a [param_schema],
    [validate] does not raise the requires-parameters error and does not
    call [parse_obj] (the outcome is the same for every parameter model);
    a returned record has [params = None], and the outcome is the one of
    the same pair with no parameters declared on either side. *)
Theorem empty_params_mapping
        (self : t) (task : Task.t) (schema : TaskSchema.t) (param_schema : ParamSchema) :
  params self = Some [] ->
  Task.param_schema task = Some param_schema ->
  validate self task schema ≠ Raise (TaskDefinitionError (msg_requires_params task))
  /\ (forall other : ParamSchema,
        validate self (Task.mk (Task.name task) (Task.func task) (Some other)) schema
        = validate self task schema)
  /\ (forall v, validate self task schema = Ok v -> ValidatedTaskDefinition.params v = None)
  /\ validate self task schema
     = validate (mk (inputs self) (outputs self) None (name self))
                (Task.mk (Task.name task) (Task.func task) None) schema.
Proof.
  intros Hp Hs. unfold validate. rewrite Hp, Hs. simpl.
  case_bool_decide as Htr.
  - repeat split; try done.
    intros He%raise_message_inj. by apply task_message_inj in He.
  - case_bool_decide as Hin; repeat split; try done.
    + intros He%raise_message_inj. by apply task_message_inj in He.
    + by intros v [= <-].
Qed.

(** C10. [validate] takes [params] out of the callable's parameter names
    whether or not the task has a [param_schema]: whenever it returns, the
    declared inputs are the parameter names without [tracker] and
    [params], also for a task without [param_schema]. So a definition
    that lists [params] among its inputs raises [TaskDefinitionError]
    with every task. *)
Theorem params_never_an_input (self : t) (task : Task.t) (schema : TaskSchema.t) :
  (forall v, validate self task schema = Ok v ->
             inputs self = remaining task /\ "params" ∉ inputs self)
  /\ (Task.param_schema task = None -> params self = None ->
      "tracker" ∈ fn_parameters (Task.func task) ->
      remaining task = inputs self ->
      validate self task schema
      = Ok (ValidatedTaskDefinition.mk (name self) None (inputs self) (outputs self)))
  /\ ("params" ∈ inputs self ->
      exists msg, validate self task schema = Raise (TaskDefinitionError msg)).
Proof.
  assert (Hrem : "params" ∉ remaining task) by (unfold remaining; set_solver).
  destruct (validate_outcomes self task schema) as [[msg He]|[Hok Heq]].
  - rewrite He. repeat split; try done; [|by eauto].
    intros Hs Hp Htr Hr.
    rewrite validate_after_param_checks in He.
    + by rewrite bool_decide_false in He by (intros Hn; by apply Hn).
    + done.
    + unfold param_checks_pass. rewrite Hp, Hs. by repeat split.
  - rewrite Hok. repeat split; try done.
    + by rewrite <- Heq.
    + intros Hs Hp _ _. unfold bound_params. by rewrite Hp.
    + intros Hin. rewrite <- Heq in Hin. done.
Qed.
End definition_validator.

(** ** The validator over the store *)

Section store.
Import Store.

Lemma fresh_lookup_None (h : heap) : h !! fresh (dom h) = None.
Proof. apply (not_elem_of_dom (D := gset loc)), is_fresh. Qed.

(** Name the location the next allocation in [h] picks, keeping only the
    fact that [h] has no object there. *)
Ltac name_fresh h l H :=
  pose proof (fresh_lookup_None h) as H;
  set (l := fresh (dom h)) in *; clearbody l.

(** A run that stops here: the outcome and the store are the ones reached. *)
Ltac stop_here := eexists _, _; split; [reflexivity|].

Lemma run_alloc {B} (o : object) (k : loc -> M B) (h : heap) :
  bindM (alloc o) k h = k (fresh (dom h)) (<[fresh (dom h) := o]> h).
Proof. reflexivity. Qed.

Lemma run_read_set {B} (l : loc) (s : gset string) (k : gset string -> M B) (h : heap) :
  h !! l = Some (PySet s) -> bindM (read_set l) k h = k s h.
Proof. intros H. unfold bindM, read_set. by rewrite H. Qed.

Lemma run_set_new {B} (xs : list string) (k : loc -> M B) (h : heap) :
  bindM (set_new xs) k h
  = k (fresh (dom h)) (<[fresh (dom h) := PySet (list_to_set xs)]> h).
Proof. reflexivity. Qed.

Lemma run_set_copy {B} (l : loc) (s : gset string) (k : loc -> M B) (h : heap) :
  h !! l = Some (PySet s) ->
  bindM (set_copy l) k h = k (fresh (dom h)) (<[fresh (dom h) := PySet s]> h).
Proof. intros H. unfold bindM, set_copy, bindM, read_set, alloc. by rewrite H. Qed.

Lemma run_set_contains {B} (l : loc) (x : string) (s : gset string)
      (k : bool -> M B) (h : heap) :
  h !! l = Some (PySet s) ->
  bindM (set_contains l x) k h = k (bool_decide (x ∈ s)) h.
Proof. intros H. unfold bindM, set_contains, bindM, read_set, ret. by rewrite H. Qed.

Lemma run_set_remove {B} (l : loc) (x : string) (s : gset string)
      (k : unit -> M B) (h : heap) :
  h !! l = Some (PySet s) -> x ∈ s ->
  bindM (set_remove l x) k h = k tt (<[l := PySet (s ∖ {[x]})]> h).
Proof.
  intros H Hx. unfold bindM, set_remove, bindM, read_set, write_set.
  by rewrite H, bool_decide_true.
Qed.

Lemma run_set_discard {B} (l : loc) (x : string) (s : gset string)
      (k : unit -> M B) (h : heap) :
  h !! l = Some (PySet s) ->
  bindM (set_discard l x) k h = k tt (<[l := PySet (s ∖ {[x]})]> h).
Proof. intros H. unfold bindM, set_discard, bindM, read_set, write_set. by rewrite H. Qed.

Lemma run_read_params {B} (p : option loc) (v : option dict)
      (k : option dict -> M B) (h : heap) :
  view_params h p = Some v -> bindM (read_params p) k h = k v h.
Proof.
  unfold view_params, view_dict, bindM, read_params, bindM, read_dict, ret.
  destruct p as [l|]; [|by intros [= ->]].
  destruct (h !! l) as [[s|d]|]; simpl; try done. by intros [= ->].
Qed.

Lemma view_definition_Some (h : heap) (self : DefinitionRef.t) (d : TaskDefinition.t) :
  view_definition h self = Some d ->
  h !! DefinitionRef.inputs self = Some (PySet (TaskDefinition.inputs d))
  /\ h !! DefinitionRef.outputs self = Some (PySet (TaskDefinition.outputs d))
  /\ view_params h (DefinitionRef.params self) = Some (TaskDefinition.params d)
  /\ DefinitionRef.name self = TaskDefinition.name d.
Proof.
  unfold view_definition, view_set.
  destruct (h !! DefinitionRef.inputs self) as [[i|?]|]; simpl; try done.
  destruct (h !! DefinitionRef.outputs self) as [[o|?]|]; simpl; try done.
  destruct (view_params h (DefinitionRef.params self)) as [p|]; simpl; try done.
  by intros [= <-].
Qed.

Lemma view_params_weaken (h h' : heap) (p : option loc) (v : option dict) :
  h ⊆ h' -> view_params h p = Some v -> view_params h' p = Some v.
Proof.
  intros Hsub. unfold view_params, view_dict. destruct p as [l|]; [|done].
  destruct (h !! l) as [[s|dd]|] eqn:E; simpl; try done.
  by rewrite (lookup_weaken _ _ _ _ E Hsub).
Qed.


Lemma bindM_assoc {A B C} (m : M A) (f : A -> M B) (k : B -> M C) (h : heap) :
  bindM (bindM m f) k h = bindM m (fun x => bindM (f x) k) h.
Proof. unfold bindM. by destruct (m h) as [[a|e] h']. Qed.

Lemma view_params_insert_set (h : heap) (l : loc) (s s' : gset string)
      (p : option loc) (v : option dict) :
  h !! l = Some (PySet s) ->
  view_params h p = Some v -> view_params (<[l := PySet s']> h) p = Some v.
Proof.
  intros Hl. unfold view_params, view_dict. destruct p as [l'|]; [|done].
  destruct (decide (l = l')) as [<-|Hne].
  - by rewrite Hl.
  - by rewrite lookup_insert_ne.
Qed.

Lemma view_set_lookup (h : heap) (l : loc) (s : gset string) :
  h !! l = Some (PySet s) -> view_set h l = Some s.
Proof. intros H. unfold view_set. by rewrite H. Qed.

Lemma validate_tail (h hc : heap) (l1 : loc) (A : gset string)
      (self : DefinitionRef.t) (d : TaskDefinition.t) (task : Task.t)
      (pr : option loc) (pv : option dict) :
  h ⊆ hc -> h !! l1 = None -> hc !! l1 = Some (PySet A) ->
  h !! DefinitionRef.inputs self = Some (PySet (TaskDefinition.inputs d)) ->
  h !! DefinitionRef.outputs self = Some (PySet (TaskDefinition.outputs d)) ->
  view_params hc pr = Some pv ->
  exists r h',
    (let* _ := set_discard l1 "params" in
     let* inputs_set := set_copy (DefinitionRef.inputs self) in
     let* lhs := read_set l1 in
     let* rhs := read_set inputs_set in
     if bool_decide (lhs ≠ rhs) then
       raise (TaskDefinitionError (msg_inputs_mismatch task))
     else
       let* inputs := set_copy (DefinitionRef.inputs self) in
       let* outputs := set_copy (DefinitionRef.outputs self) in
       ret (ValidatedRef.mk (DefinitionRef.name self) pr inputs outputs)) hc = (r, h')
    /\ h ⊆ h'
    /\ observe h' r =
       Some (if bool_decide (A ∖ {["params"]} ≠ TaskDefinition.inputs d)
             then Raise (TaskDefinitionError (msg_inputs_mismatch task))
             else Ok (ValidatedTaskDefinition.mk (DefinitionRef.name self) pv
                        (TaskDefinition.inputs d) (TaskDefinition.outputs d))).
Proof.
  intros Hsub Hl1 Hc1 Hi Ho Hpv.
  rewrite (run_set_discard _ _ _ _ _ Hc1).
  set (A2 := A ∖ {["params"]}).
  set (h1 := <[l1 := PySet A2]> hc).
  assert (Hsub1 : h ⊆ h1) by (by apply insert_subseteq_r).
  assert (Hp1 : view_params h1 pr = Some pv) by (by eapply view_params_insert_set).
  assert (H1l : h1 !! l1 = Some (PySet A2)) by apply lookup_insert_eq.
  rewrite (run_set_copy _ _ _ _ (lookup_weaken _ _ _ _ Hi Hsub1)).
  name_fresh h1 l2 Hf2.
  set (h2 := <[l2 := PySet (TaskDefinition.inputs d)]> h1).
  assert (Hsub2 : h1 ⊆ h2) by (by apply insert_subseteq).
  rewrite (run_read_set _ _ _ _ (lookup_weaken _ _ _ _ H1l Hsub2)).
  rewrite (run_read_set l2 (TaskDefinition.inputs d)) by apply lookup_insert_eq.
  case_bool_decide as Hcmp.
  { stop_here. split; [by etrans|done]. }
  rewrite (run_set_copy _ _ _ _
             (lookup_weaken _ _ _ _ (lookup_weaken _ _ _ _ Hi Hsub1) Hsub2)).
  name_fresh h2 l3 Hf3.
  set (h3 := <[l3 := PySet (TaskDefinition.inputs d)]> h2).
  assert (Hsub3 : h2 ⊆ h3) by (by apply insert_subseteq).
  assert (Ho3 : h3 !! DefinitionRef.outputs self = Some (PySet (TaskDefinition.outputs d))).
  { repeat (eapply lookup_weaken; [|eassumption]). done. }
  rewrite (run_set_copy _ _ _ _ Ho3).
  name_fresh h3 l4 Hf4.
  set (h4 := <[l4 := PySet (TaskDefinition.outputs d)]> h3).
  assert (Hsub4 : h3 ⊆ h4) by (by apply insert_subseteq).
  stop_here. split.
  { etrans; [|exact Hsub4]. etrans; [|exact Hsub3]. by etrans. }
  unfold observe, view_validated. cbn [ValidatedRef.params ValidatedRef.inputs
    ValidatedRef.outputs ValidatedRef.name].
  rewrite (view_params_weaken h1 h4 pr pv) by (try done; by repeat (etrans; [eassumption|])).
  rewrite (view_set_lookup h4 l3 (TaskDefinition.inputs d)).
  2:{ eapply lookup_weaken; [apply lookup_insert_eq|done]. }
  rewrite (view_set_lookup h4 l4 (TaskDefinition.outputs d)) by apply lookup_insert_eq.
  done.
Qed.

(** The store-level [validate] refines the function [TaskDefinition.validate]
    and only extends the store. *)
Lemma validate_run (h : heap) (self : DefinitionRef.t) (d : TaskDefinition.t)
      (task : Task.t) (schema : TaskSchema.t) :
  view_definition h self = Some d ->
  exists r h',
    validate self task schema h = (r, h')
    /\ h ⊆ h'
    /\ observe h' r = Some (TaskDefinition.validate d task schema).
Proof.
  intros (Hi & Ho & Hp & Hn)%view_definition_Some.
  unfold validate, TaskDefinition.validate.
  rewrite run_set_new.
  name_fresh h l1 H1.
  rewrite (run_set_contains _ _ (list_to_set (fn_parameters (Task.func task))))
    by apply lookup_insert_eq.
  set (A0 := list_to_set (fn_parameters (Task.func task)) : gset string).
  destruct (decide ("tracker" ∈ A0)) as [Htr|Htr].
  2:{ rewrite (bool_decide_false _ Htr), (bool_decide_true _ Htr). simpl.
      stop_here. split; [by apply insert_subseteq|done]. }
  assert (Htr' : ~ ("tracker" ∉ A0)) by (intros Hn'; by apply Hn').
  rewrite (bool_decide_true _ Htr), (bool_decide_false _ Htr').
  cbn [negb].
  rewrite (run_set_remove _ _ _ _ _ (lookup_insert_eq _ _ _) Htr).
  rewrite insert_insert_eq.
  set (A1 := A0 ∖ {["tracker"]}) in *.
  assert (Hp1 : view_params (<[l1 := PySet A1]> h) (DefinitionRef.params self)
                = Some (TaskDefinition.params d))
    by (eapply view_params_weaken; [by apply insert_subseteq|done]).
  rewrite (run_read_params _ _ _ _ Hp1).
  destruct (truthy (TaskDefinition.params d) && bool_decide (Task.param_schema task = None)).
  { stop_here. split; [by apply insert_subseteq|done]. }
  assert (Hnone : bool_decide (DefinitionRef.params self = None)
                  = bool_decide (TaskDefinition.params d = None)).
  { unfold view_params in Hp. destruct (DefinitionRef.params self) as [lp|].
    - destruct (view_dict h lp); simpl in Hp; [|done]. by injection Hp as <-.
    - by injection Hp as <-. }
  rewrite Hnone.
  destruct (bool_decide (TaskDefinition.params d = None) && _).
  { stop_here. split; [by apply insert_subseteq|done]. }
  assert (Hc1 : <[l1:=PySet A1]> h !! l1 = Some (PySet A1)) by apply lookup_insert_eq.
  assert (Hs1 : h ⊆ <[l1:=PySet A1]> h) by (by apply insert_subseteq).
  unfold mbind, result_bind. rewrite <- Hn.
  destruct (TaskDefinition.params d) as [[|kv raw]|] eqn:Ep;
    [by apply (validate_tail h _ l1 A1 self d task None None)| |
     by apply (validate_tail h _ l1 A1 self d task None None)].
  destruct (Task.param_schema task) as [ps|] eqn:Es;
    [|by apply (validate_tail h _ l1 A1 self d task None None)].
  destruct (parse_obj ps (kv :: raw)) as [parsed|] eqn:Eparse.
  - rewrite bindM_assoc, run_alloc.
    name_fresh (<[l1:=PySet A1]> h) l2 Hf.
    assert (Hne : l2 ≠ l1) by (intros E; congruence).
    apply (validate_tail h _ l1 A1 self d task (Some l2) (Some parsed)); try done.
    + etrans; [exact Hs1|]. by apply insert_subseteq.
    + by rewrite lookup_insert_ne.
    + unfold view_params, view_dict. by rewrite lookup_insert_eq.
  - by stop_here.
Qed.

Lemma observe_weaken (h h' : heap) (r : result ValidatedRef.t)
      (x : result ValidatedTaskDefinition.t) :
  h ⊆ h' -> observe h r = Some x -> observe h' r = Some x.
Proof.
  intros Hsub. destruct r as [v|e]; [|done]. unfold observe, view_validated, view_set.
  destruct (view_params h (ValidatedRef.params v)) as [p|] eqn:Ep; [|done].
  rewrite (view_params_weaken _ _ _ _ Hsub Ep). simpl.
  destruct (h !! ValidatedRef.inputs v) as [[i|?]|] eqn:Ei; try done.
  rewrite (lookup_weaken _ _ _ _ Ei Hsub). simpl.
  destruct (h !! ValidatedRef.outputs v) as [[o|?]|] eqn:Eo; try done.
  by rewrite (lookup_weaken _ _ _ _ Eo Hsub).
Qed.

Lemma view_definition_weaken (h h' : heap) (self : DefinitionRef.t) (d : TaskDefinition.t) :
  h ⊆ h' -> view_definition h self = Some d -> view_definition h' self = Some d.
Proof.
  intros Hsub H. pose proof H as (Hi & Ho & Hp & Hn)%view_definition_Some.
  unfold view_definition, view_set.
  rewrite (lookup_weaken _ _ _ _ Hi Hsub), (lookup_weaken _ _ _ _ Ho Hsub). simpl.
  rewrite (view_params_weaken _ _ _ _ Hsub Hp). simpl.
  rewrite Hn. by destruct d.
Qed.

(** C8. Run on a store in which [self] is the definition [d], [validate]
    leaves every object of that store as it was (it only creates objects),
    and its outcome, seen with the contents of the sets it refers to, is
    the value of the function [TaskDefinition.validate] at [d]. A second
    run on the resulting store has the same outcome, and the two returned
    records are equal field by field. *)
Theorem validate_pure_and_idempotent
        (h : heap) (self : DefinitionRef.t) (d : TaskDefinition.t)
        (task : Task.t) (schema : TaskSchema.t) :
  view_definition h self = Some d ->
  exists r1 h1 r2 h2,
    validate self task schema h = (r1, h1)
    /\ validate self task schema h1 = (r2, h2)
    /\ h ⊆ h1 /\ h1 ⊆ h2
    /\ view_definition h2 self = Some d
    /\ observe h1 r1 = Some (TaskDefinition.validate d task schema)
    /\ observe h2 r2 = Some (TaskDefinition.validate d task schema)
    /\ observe h2 r1 = observe h2 r2.
Proof.
  intros Hd.
  destruct (validate_run h self d task schema Hd) as (r1 & h1 & Hr1 & Hs1 & Ho1).
  pose proof (view_definition_weaken _ _ _ _ Hs1 Hd) as Hd1.
  destruct (validate_run h1 self d task schema Hd1) as (r2 & h2 & Hr2 & Hs2 & Ho2).
  exists r1, h1, r2, h2. repeat split; try done.
  - by eapply view_definition_weaken.
  - rewrite Ho2. by eapply observe_weaken.
Qed.
End store.

(** ** The theorems at the sample inputs *)

Lemma validate_outputs_exact_set_witness :
  ValidatedTaskDefinition.validate_outputs elements outputs_ab result_a_b = Ok tt.
Proof.
  pose proof (validate_outputs_exact_set elements
                (fun s : gset string => reflexivity (elements s))) as [_ H].
  destruct (H outputs_ab result_a_b eq_refl) as (_ & _ & Hok).
  apply Hok. by vm_compute.
Defined.

Lemma validate_outputs_missing_first_witness :
  ValidatedTaskDefinition.validate_outputs elements outputs_ab result_a_zz
  = Raise (TaskDefinitionError
             ("Task is missing expected outputs: "
                +:+ join ", " (elements (ValidatedTaskDefinition.outputs outputs_ab
                                           ∖ key_set result_a_zz)) +:+ ".")).
Proof.
  apply (validate_outputs_missing_first elements outputs_ab result_a_zz);
    apply (bool_decide_unpack _); by vm_compute.
Defined.

(** C7 fails as stated: with [b] missing and [zz] unexpected the only
    failure is the missing-outputs error, and its message says nothing of
    [zz]. *)
Lemma combined_failure_counterexample :
  ValidatedTaskDefinition.outputs outputs_ab ∖ key_set result_a_zz ≠ ∅
  /\ key_set result_a_zz ∖ ValidatedTaskDefinition.outputs outputs_ab ≠ ∅
  /\ ValidatedTaskDefinition.validate_outputs elements outputs_ab result_a_zz
     = Raise (TaskDefinitionError "Task is missing expected outputs: b.")
  /\ mentions "Task is missing expected outputs: b." "b" = true
  /\ mentions "Task is missing expected outputs: b." "zz" = false
  /\ ~ (exists msg,
          ValidatedTaskDefinition.validate_outputs elements outputs_ab result_a_zz
          = Raise (TaskDefinitionError msg)
          /\ mentions msg "b" = true /\ mentions msg "zz" = true).
Proof.
  assert (He : ValidatedTaskDefinition.validate_outputs elements outputs_ab result_a_zz
               = Raise (TaskDefinitionError "Task is missing expected outputs: b."))
    by (by vm_compute).
  split; [apply (bool_decide_unpack _); by vm_compute|].
  split; [apply (bool_decide_unpack _); by vm_compute|].
  split; [exact He|].
  split; [reflexivity|]. split; [reflexivity|].
  intros (msg & Hm & _ & Hzz). rewrite He in Hm. injection Hm as <-.
  by vm_compute in Hzz.
Qed.

Lemma validate_iff_inputs_match_witness :
  TaskDefinition.validate run_definition run_task run_schema
  = Ok (ValidatedTaskDefinition.mk "run" None {["x"]} {["y"]}).
Proof.
  assert (Htr : "tracker" ∈ fn_parameters (Task.func run_task)) by (by left).
  assert (Hp : param_checks_pass run_definition run_task) by (by repeat split).
  destruct (validate_iff_inputs_match run_definition run_task run_schema Htr Hp)
    as (_ & Hok & _).
  apply Hok. by vm_compute.
Defined.

Lemma empty_params_mapping_witness :
  TaskDefinition.params empty_params_definition = Some []
  /\ Task.param_schema tuned_task = Some any_params
  /\ TaskDefinition.validate empty_params_definition tuned_task run_schema
     = TaskDefinition.validate run_definition run_task run_schema.
Proof.
  split; [reflexivity|]. split; [reflexivity|].
  apply (empty_params_mapping empty_params_definition tuned_task run_schema any_params
           eq_refl eq_refl).
Defined.

Lemma validate_pure_and_idempotent_witness :
  exists r1 h1 r2 h2,
    Store.validate run_definition_ref run_task run_schema run_store = (r1, h1)
    /\ Store.validate run_definition_ref run_task run_schema h1 = (r2, h2)
    /\ run_store ⊆ h1 /\ h1 ⊆ h2
    /\ Store.view_definition h2 run_definition_ref = Some run_definition
    /\ Store.observe h1 r1
       = Some (TaskDefinition.validate run_definition run_task run_schema)
    /\ Store.observe h2 r2
       = Some (TaskDefinition.validate run_definition run_task run_schema)
    /\ Store.observe h2 r1 = Store.observe h2 r2.
Proof.
  apply (validate_pure_and_idempotent run_store run_definition_ref run_definition
           run_task run_schema).
  by vm_compute.
Defined.

Lemma param_declaration_asymmetry_witness :
  TaskDefinition.validate learning_rate_definition run_task run_schema
  = Raise (TaskDefinitionError (msg_accepts_no_params run_task))
  /\ TaskDefinition.validate run_definition tuned_task run_schema
     = Raise (TaskDefinitionError (msg_requires_params tuned_task)).
Proof.
  split.
  - apply (param_declaration_asymmetry learning_rate_definition run_task run_schema);
      [reflexivity|reflexivity|by left].
  - apply (param_declaration_asymmetry run_definition tuned_task run_schema);
      [reflexivity|done|by left].
Defined.

Lemma experiment_validate_rules_witness :
  ExperimentSchema.validate stray_parameter_experiment
  = Raise (ValueError "Task train has a parameter x that is not an input.").
Proof.
  apply (proj2 experiment_validate_rules "train" "tasks.py:run" {["out"]}).
  apply (bool_decide_unpack _). by vm_compute.
Defined.

Lemma params_never_an_input_witness :
  exists msg,
    TaskDefinition.validate params_input_definition run_task run_schema
    = Raise (TaskDefinitionError msg).
Proof.
  apply (params_never_an_input params_input_definition run_task run_schema).
  apply (bool_decide_unpack _). by vm_compute.
Defined.

(** * Further properties of the task module *)

(** The two set differences of [validate_outputs] are empty together
    exactly when the two sets are equal. *)
Lemma differences_empty_iff (declared actual : gset string) :
  declared ∖ actual = ∅ /\ actual ∖ declared = ∅ <-> actual = declared.
Proof.
  split.
  - intros [Hm Hx]. apply set_eq. intros x. split; intros Hin.
    + destruct (decide (x ∈ declared)); [done|]. set_solver.
    + destruct (decide (x ∈ actual)); [done|]. set_solver.
  - intros ->. split; set_solver.
Qed.

Lemma validate_outputs_passes_iff
      (set_iter : gset string -> list string)
      (self : ValidatedTaskDefinition.t) (outs : dict) :
  ValidatedTaskDefinition.validate_outputs set_iter self outs = Ok tt
  <-> key_set outs = ValidatedTaskDefinition.outputs self.
Proof.
  rewrite <- differences_empty_iff. unfold ValidatedTaskDefinition.validate_outputs.
  repeat case_bool_decide; split; try done; try (by intros [? ?]).
Qed.

Section more_definition_validator.
Import TaskDefinition.

Lemma validate_without_tracker (self : t) (task : Task.t) (schema : TaskSchema.t) :
  "tracker" ∉ fn_parameters (Task.func task) ->
  validate self task schema = Raise (TaskDefinitionError (msg_missing_tracker task)).
Proof.
  intros Hn. unfold validate. rewrite bool_decide_true; [done|].
  intros Hin. by apply Hn, tracker_in_set.
Qed.

(** X1. [validate] returns exactly when all four checks pass: the callable
    has a [tracker] parameter, the parameter checks pass, and the remaining
    parameter names are the declared inputs. The record it returns takes
    its name, inputs and outputs from the definition, never from the task. *)
Theorem validate_returns_iff (self : t) (task : Task.t) (schema : TaskSchema.t) :
  ((exists v, validate self task schema = Ok v) <->
   "tracker" ∈ fn_parameters (Task.func task)
   /\ param_checks_pass self task
   /\ remaining task = inputs self)
  /\ (forall v, validate self task schema = Ok v ->
        v = ValidatedTaskDefinition.mk (name self) (bound_params self task)
              (inputs self) (outputs self)).
Proof.
  split; [split|].
  - intros [v Hv].
    assert (Htr : "tracker" ∈ fn_parameters (Task.func task)).
    { destruct (decide ("tracker" ∈ fn_parameters (Task.func task))) as [|Hn]; [done|].
      by rewrite validate_without_tracker in Hv. }
    assert (Hp : param_checks_pass self task).
    { unfold validate in Hv. rewrite bool_decide_false in Hv
        by (intros Hn; apply Hn; by apply tracker_in_set).
      unfold param_checks_pass.
      destruct (params self) as [[|kv raw]|] eqn:Ep,
               (Task.param_schema task) as [ps|] eqn:Es; simpl in Hv; try done;
        (repeat split; try done); intros raw' ps' [= <-] Htruthy [= <-]; try done.
      by destruct (parse_obj ps (kv :: raw)). }
    split; [done|]. split; [done|].
    rewrite (validate_after_param_checks _ _ _ Htr Hp) in Hv.
    by case_bool_decide.
  - intros (Htr & Hp & Heq).
    rewrite (validate_after_param_checks _ _ _ Htr Hp).
    rewrite bool_decide_false by (intros Hn; by apply Hn). eauto.
  - intros v Hv.
    destruct (validate_outcomes self task schema) as [[msg He]|[Hok _]]; congruence.
Qed.

(** X2. The checks fail fast, in order. Without a [tracker] parameter the
    error is the missing-tracker one whatever else is wrong; with it, a
    mapping the parameter model rejects gives the invalid-parameters error
    whatever the inputs are. *)
Theorem validate_fail_fast (self : t) (task : Task.t) (schema : TaskSchema.t) :
  ("tracker" ∉ fn_parameters (Task.func task) ->
   validate self task schema = Raise (TaskDefinitionError (msg_missing_tracker task)))
  /\ (forall kv raw param_schema,
        "tracker" ∈ fn_parameters (Task.func task) ->
        params self = Some (kv :: raw) ->
        Task.param_schema task = Some param_schema ->
        parse_obj param_schema (kv :: raw) = None ->
        validate self task schema
        = Raise (TaskDefinitionError (msg_invalid_params task))).
Proof.
  split; [apply validate_without_tracker|].
  - intros kv raw ps Htr Hp Hs Hparse. unfold validate.
    rewrite bool_decide_false by (intros Hn; apply Hn; by apply tracker_in_set).
    by rewrite Hp, Hs, Hparse.
Qed.

(** X3. Only the set of the callable's parameter names matters: two
    callables with the same names, in any order, validate alike. *)
Theorem validate_parameter_order (self : t) (schema : TaskSchema.t)
        (n : string) (f g : callable) (param_schema : option ParamSchema) :
  (forall x, x ∈ fn_parameters f <-> x ∈ fn_parameters g) ->
  validate self (Task.mk n f param_schema) schema
  = validate self (Task.mk n g param_schema) schema.
Proof.
  intros Hfg.
  assert (Hset : (list_to_set (fn_parameters f) : gset string)
                 = list_to_set (fn_parameters g)).
  { apply set_eq. intros x. rewrite !elem_of_list_to_set. apply Hfg. }
  unfold validate. simpl. by rewrite Hset.
Qed.

(** X4. A validated definition checks results against the outputs the
    definition declared: after [validate] returns [v], [validate_outputs]
    on [v] passes exactly for the mappings whose keys are those outputs. *)
Theorem validated_checks_declared_outputs
        (self : t) (task : Task.t) (schema : TaskSchema.t)
        (v : ValidatedTaskDefinition.t)
        (set_iter : gset string -> list string) (outs : dict) :
  validate self task schema = Ok v ->
  (ValidatedTaskDefinition.validate_outputs set_iter v outs = Ok tt
   <-> key_set outs = outputs self).
Proof.
  intros Hv. rewrite validate_outputs_passes_iff.
  destruct (validate_outcomes self task schema) as [[msg He]|[Hok _]]; [congruence|].
  rewrite Hok in Hv. injection Hv as <-. simpl. reflexivity.
Qed.

(** X5. [Task.define] without a name, or with the empty name, names the
    task after the function, and such a task is reported under the
    function's name: bound to a callable without [tracker], [validate]
    raises the missing-tracker error for [fn_name f]. *)
Theorem define_default_name (self : t) (schema : TaskSchema.t)
        (f : callable) (name : option string) (param_schema : option ParamSchema) :
  name = None \/ name = Some "" ->
  Task.name (Task.define f name param_schema) = fn_name f
  /\ ("tracker" ∉ fn_parameters f ->
      validate self (Task.define f name param_schema) schema
      = Raise (TaskDefinitionError
                 ("Task " +:+ fn_name f +:+ " is missing the 'tracker' parameter."))).
Proof.
  intros Hname.
  assert (Hn : Task.name (Task.define f name param_schema) = fn_name f)
    by (by destruct Hname as [-> | ->]).
  split; [done|]. intros Htr.
  rewrite validate_without_tracker by done. unfold msg_missing_tracker. by rewrite Hn.
Qed.
End more_definition_validator.

Section more_resolver.
Import ValidatedTaskSchema.

(** X6. [from_unvalidated] never returns: on every file system and every
    schema it raises [TaskDefinitionError], with the malformed-reference
    message when the reference does not have one colon and with
    [Invalid task schema.] when it has. *)
Theorem from_unvalidated_always_raises (fs : FileSystem) (schema : TaskSchema.t) :
  (forall v, from_unvalidated fs schema ≠ Ok v)
  /\ (colons (TaskSchema.func schema) = 1 ->
      from_unvalidated fs schema = Raise (TaskDefinitionError "Invalid task schema."))
  /\ (colons (TaskSchema.func schema) ≠ 1 ->
      from_unvalidated fs schema
      = Raise (invalid_function_definition (TaskSchema.func schema))).
Proof.
  rewrite from_unvalidated_raises. case_bool_decide; repeat split; done.
Qed.

(** X7. [_validate_schema] never loads a module and never returns a
    callable: its outcome is the same on every file system, and it is
    [NameError] for [file_path] whenever the reference has one colon. *)
Theorem validate_schema_never_loads
        (fs fs' : FileSystem) (self : TaskDefinition.t) (schema : TaskSchema.t) :
  TaskDefinition._validate_schema fs self schema
  = TaskDefinition._validate_schema fs' self schema
  /\ (forall f, TaskDefinition._validate_schema fs self schema ≠ Ok f)
  /\ (colons (TaskSchema.func schema) = 1 ->
      TaskDefinition._validate_schema fs self schema = Raise (NameError "file_path")).
Proof.
  rewrite !validate_schema_raises. case_bool_decide; repeat split; done.
Qed.
End more_resolver.

Section more_outputs.
Import ValidatedTaskDefinition.

End more_outputs.

Section more_experiment.
Import ExperimentSchema.

(** X9. The tasks are checked in order and the first failure ends the pass:
    validating [before ++ after] is validating [before] and, only if that
    passes, validating [after]. *)
Theorem experiment_validate_app (before after : list (string * TaskSchema.t)) :
  validate (mk (before ++ after))
  = match validate (mk before) with
    | Ok _ => validate (mk after)
    | Raise e => Raise e
    end.
Proof.
  unfold validate. simpl. induction before as [|[name task] rest IH]; [done|].
  cbn [app for_each]. unfold mbind, result_bind in *.
  match goal with |- context [match ?b with Ok _ => _ | Raise _ => _ end] =>
    destruct b as [[]|e] end; [apply IH|done].
Qed.

(** X10. For a task with inputs and outputs, the parameter rule reports the
    first key of the mapping, in its order, that is not an input. *)
Theorem experiment_first_stray_key
        (name : string) (task : TaskSchema.t) (ok stray : dict)
        (key : string) (value : pyval) :
  TaskSchema.inputs task ≠ ∅ ->
  TaskSchema.outputs task ≠ ∅ ->
  TaskSchema.params task = Some (ok ++ (key, value) :: stray)%list ->
  (forall k, k ∈ keys ok -> k ∈ TaskSchema.inputs task) ->
  key ∉ TaskSchema.inputs task ->
  validate (mk [(name, task)])
  = Raise (ValueError ("Task " +:+ name +:+ " has a parameter " +:+ key
                         +:+ " that is not an input.")).
Proof.
  intros Hi Ho Hp Hok Hkey.
  assert (Hloop : for_each (keys (ok ++ (key, value) :: stray)%list)
            (fun param =>
               if bool_decide (param ∉ TaskSchema.inputs task)
               then Raise (ValueError ("Task " +:+ name +:+ " has a parameter " +:+ param
                                         +:+ " that is not an input."))
               else Ok tt)
          = Raise (ValueError ("Task " +:+ name +:+ " has a parameter " +:+ key
                                 +:+ " that is not an input."))).
  { clear Hp. induction ok as [|[k v] ok IH]; simpl.
    - by rewrite bool_decide_true.
    - rewrite bool_decide_false.
      + unfold mbind, result_bind. apply IH. intros k' Hk'. apply Hok. simpl. by right.
      + intros Hn. apply Hn, Hok. simpl. by left. }
  unfold validate. cbn [tasks for_each]. rewrite !bool_decide_false by done. rewrite Hp.
  revert Hloop. generalize (ok ++ (key, value) :: stray)%list.
  intros [|kv raw] Hloop; [done|].
  unfold mbind, result_bind. by rewrite Hloop.
Qed.
End more_experiment.

(** * The version bumping tool *)

Section bump_tool.
Import Bump BumpSpec.

(** ** Strings *)

Lemma sapp_nil_l (s : string) : "" +:+ s = s.
Proof. reflexivity. Qed.

Lemma sapp_cons (c : ascii) (s t : string) : String c s +:+ t = String c (s +:+ t).
Proof. reflexivity. Qed.

(** Push appends inside, as [simpl] does for lists. *)
Ltac app_norm := rewrite ?sapp_cons, ?sapp_nil_l.
Ltac app_norm_in H := rewrite ?sapp_cons, ?sapp_nil_l in H.

Lemma sapp_nil_r (s : string) : s +:+ "" = s.
Proof. induction s as [|c s IH]; app_norm; [done|by rewrite IH]. Qed.

Lemma sapp_assoc (a b c : string) : (a +:+ b) +:+ c = a +:+ (b +:+ c).
Proof. induction a as [|x a IH]; app_norm; [done|by rewrite IH]. Qed.

Lemma sapp_length (a b : string) :
  String.length (a +:+ b) = (String.length a + String.length b)%nat.
Proof. induction a as [|x a IH]; app_norm; simpl; [done|by rewrite IH]. Qed.

Lemma substring_prefix (w rest : string) :
  substring 0 (String.length w) (w +:+ rest) = w.
Proof.
  induction w as [|c w IH]; app_norm; simpl.
  - by destruct rest.
  - by rewrite IH.
Qed.

Lemma consumed_app (w rest : string) : consumed (w +:+ rest) rest = w.
Proof.
  unfold consumed. rewrite sapp_length.
  replace (String.length w + String.length rest - String.length rest)%nat
    with (String.length w) by lia.
  apply substring_prefix.
Qed.

(** ** What a match implies *)

Lemma many_sound {A} (k : cls) (s : string) :
  forall (pos : nat) (cont : nat -> string -> option A) (r : A),
    many k pos s cont = Some r ->
    exists w rest,
      s = w +:+ rest /\ all_cls k w = true
      /\ cont (pos + String.length w)%nat rest = Some r.
Proof.
  induction s as [|c s IH]; intros pos cont r; simpl.
  - intros H. exists "", "". simpl. by rewrite Nat.add_0_r.
  - destruct (in_cls k c) eqn:Ec.
    + destruct (many k (S pos) s cont) as [r'|] eqn:Em.
      * intros [= <-]. destruct (IH _ _ _ Em) as (w & rest & -> & Hw & Hc).
        exists (String c w), rest. simpl. rewrite Ec, Hw.
        replace (pos + S (String.length w))%nat with (S pos + String.length w)%nat by lia.
        done.
      * intros H. exists "", (String c s). simpl. by rewrite Nat.add_0_r.
    + intros H. exists "", (String c s). simpl. by rewrite Nat.add_0_r.
Qed.

Lemma exec_sound (r : regex) :
  forall (pos : nat) (s : string) (g : groups)
         (cont : nat -> string -> groups -> option groups) (res : groups),
    exec r pos s g cont = Some res ->
    exists w rest g',
      s = w +:+ rest /\ den r pos w rest g g'
      /\ cont (pos + String.length w)%nat rest g' = Some res.
Proof.
  induction r as [| | |c|k|k|a IHa b IHb|a IHa|n a IHa];
    intros pos s g cont res; simpl.
  - intros H. exists "", s, g. simpl. by rewrite Nat.add_0_r.
  - destruct (Nat.eqb_spec pos 0) as [->|]; [|done].
    intros H. by exists "", s, g.
  - destruct s as [|c [|c' s']]; try done.
    + intros H. exists "", "", g. simpl. rewrite Nat.add_0_r. eauto 10.
    + destruct (Ascii.eqb_spec c newline) as [->|]; [|done].
      intros H. exists "", (String newline ""), g. simpl. rewrite Nat.add_0_r. eauto 10.
  - destruct s as [|c' s']; [done|].
    destruct (Ascii.eqb_spec c c') as [<-|]; [|done].
    intros H. exists (String c ""), s', g. simpl.
    by replace (pos + 1)%nat with (S pos) by lia.
  - intros (w & rest & -> & Hw & Hc)%many_sound. by exists w, rest, g.
  - destruct s as [|c s']; [done|].
    destruct (in_cls k c) eqn:Ec; [|done].
    intros (w & rest & -> & Hw & Hc)%many_sound.
    exists (String c w), rest, g. simpl. rewrite Ec, Hw.
    replace (pos + S (String.length w))%nat with (S pos + String.length w)%nat by lia.
    done.
  - intros (w1 & rest1 & g1 & -> & Ha & Hk)%IHa.
    apply IHb in Hk as (w2 & rest & g2 & -> & Hb & Hk).
    exists (w1 +:+ w2), rest, g2. rewrite sapp_assoc, sapp_length, Nat.add_assoc.
    split; [done|]. split; [|done]. by exists w1, w2, g1.
  - destruct (exec a pos s g cont) as [r'|] eqn:Ea.
    + intros [= <-]. apply IHa in Ea as (w & rest & g' & -> & Ha & Hk).
      exists w, rest, g'. eauto.
    + intros H. exists "", s, g. simpl. rewrite Nat.add_0_r. eauto 10.
  - intros (w & rest & g1 & -> & Ha & Hk)%IHa. rewrite consumed_app in Hk.
    exists w, rest, (<[n := w]> g1). eauto 10.
Qed.

Ltac destruct_den :=
  repeat match goal with
         | H : exists _, _ |- _ => destruct H
         | H : _ /\ _ |- _ => destruct H
         | H : _ \/ _ |- _ => destruct H
         end.

Ltac str_norm :=
  repeat first [rewrite sapp_assoc | rewrite sapp_nil_r | rewrite sapp_cons | rewrite sapp_nil_l].

Ltac finish_text :=
  unfold numerals, numeral, final_newline, semver;
  repeat split; try assumption; try (left; assumption); try (right; assumption);
  try done; str_norm; done.

(** Read the numerals off the groups, then check the text. *)
Ltac read_groups :=
  str_norm;
  first [ eexists _, _, _, (Some _); split; cycle 1; [reflexivity|]
        | eexists _, _, _, None; split; cycle 1; [reflexivity|] ].

Lemma standalone_sound (s : string) (g : groups) :
  re_match STANDALONE_SEMVER_REGEX s = Some g ->
  exists d1 d2 d3 d5, standalone_text s d1 d2 d3 d5 /\ g = semver_groups d1 d2 d3 d5.
Proof.
  unfold re_match. intros (w & rest & g' & -> & Hden & [= <-])%exec_sound.
  cbn [STANDALONE_SEMVER_REGEX seq lit den] in Hden.
  destruct_den; subst; read_groups; exists rest; finish_text.
Qed.

Lemma prefixed_sound (s : string) (g : groups) :
  re_match PREFIXED_SEMVER_REGEX s = Some g ->
  exists d1 d2 d3 d5, prefixed_text s d1 d2 d3 d5 /\ g = semver_groups d1 d2 d3 d5.
Proof.
  unfold re_match. intros (w & rest & g' & -> & Hden & [= <-])%exec_sound.
  cbn [PREFIXED_SEMVER_REGEX seq lit den] in Hden.
  destruct_den; subst; read_groups;
    match goal with
    | H1 : all_cls space ?a = true, H2 : all_cls space ?b = true |- _ =>
        exists a, b, rest; finish_text
    end.
Qed.

(** ** What a text of the right form gives *)

Lemma many_complete {A} (k : cls) (w rest : string) :
  forall (pos : nat) (cont : nat -> string -> option A),
    all_cls k w = true ->
    is_Some (cont (pos + String.length w)%nat rest) ->
    is_Some (many k pos (w +:+ rest) cont).
Proof.
  induction w as [|c w IH]; intros pos cont Hw Hc.
  - app_norm. simpl in Hc. rewrite Nat.add_0_r in Hc.
    destruct rest as [|c r]; simpl; [done|].
    destruct (in_cls k c); [|done]. by destruct (many k (S pos) r cont).
  - app_norm. simpl in *. apply andb_true_iff in Hw as [Hc' Hw]. rewrite Hc'.
    replace (pos + S (String.length w))%nat with (S pos + String.length w)%nat in Hc by lia.
    destruct (IH (S pos) cont Hw Hc) as [r ->]. eauto.
Qed.

Lemma exec_complete (r : regex) :
  forall (pos : nat) (w rest : string) (g g' : groups)
         (cont : nat -> string -> groups -> option groups),
    den r pos w rest g g' ->
    is_Some (cont (pos + String.length w)%nat rest g') ->
    is_Some (exec r pos (w +:+ rest) g cont).
Proof.
  induction r as [| | |c|k|k|a IHa b IHb|a IHa|n a IHa];
    intros pos w rest g g' cont; simpl.
  - intros [-> ->]. simpl. by rewrite Nat.add_0_r.
  - intros (-> & -> & ->). simpl. done.
  - intros (-> & Hrest & ->). simpl. rewrite Nat.add_0_r.
    by destruct Hrest as [-> | ->].
  - intros [-> ->]. app_norm. rewrite Ascii.eqb_refl.
    simpl. by replace (pos + 1)%nat with (S pos) by lia.
  - intros [Hw ->] Hc. by apply many_complete.
  - intros (Hne & Hw & ->) Hc. destruct w as [|c w]; [done|].
    app_norm. simpl in *. apply andb_true_iff in Hw as [Hc' Hw]. rewrite Hc'.
    apply many_complete; [done|].
    by replace (S pos + String.length w)%nat with (pos + S (String.length w))%nat by lia.
  - intros (w1 & w2 & g1 & -> & Ha & Hb) Hc. rewrite sapp_assoc.
    apply (IHa _ _ _ _ g1); [done|].
    apply (IHb _ _ _ _ g'); [done|].
    by rewrite sapp_length, Nat.add_assoc in Hc.
  - intros [Ha | [-> ->]] Hc.
    + destruct (IHa _ _ _ _ _ _ Ha Hc) as [r ->]. eauto.
    + app_norm. simpl in Hc. rewrite Nat.add_0_r in Hc.
      by destruct (exec a pos rest g cont).
  - intros (g1 & Ha & ->) Hc.
    apply (IHa _ _ _ _ g1); [done|]. by rewrite consumed_app.
Qed.

Ltac build_den := cbn [den seq lit]; repeat eexists; try reflexivity; try assumption.

Lemma standalone_den (d1 d2 d3 : string) (d5 : option string) (nl : string) :
  numerals d1 d2 d3 d5 -> final_newline nl ->
  exists w g,
    w = semver d1 d2 d3 d5
    /\ den STANDALONE_SEMVER_REGEX 0 w nl ∅ g.
Proof.
  intros ([? ?] & [? ?] & [? ?] & H5) Hnl.
  destruct d5 as [d5|]; [destruct H5|].
  - exists ("" +:+ d1 +:+ "." +:+ d2 +:+ "." +:+ d3
             +:+ (("-" +:+ "r" +:+ "c" +:+ "." +:+ "") +:+ d5) +:+ "" +:+ "").
    eexists. split; [unfold semver; by str_norm|].
    unfold STANDALONE_SEMVER_REGEX. build_den.
    left. build_den.
  - exists ("" +:+ d1 +:+ "." +:+ d2 +:+ "." +:+ d3 +:+ "" +:+ "" +:+ "").
    eexists. split; [unfold semver; by str_norm|].
    unfold STANDALONE_SEMVER_REGEX. build_den.
    right. build_den.
Qed.

Lemma prefixed_den (ws1 ws2 d1 d2 d3 : string) (d5 : option string) (nl : string) :
  all_cls space ws1 = true -> all_cls space ws2 = true ->
  numerals d1 d2 d3 d5 -> final_newline nl ->
  exists w g,
    w = "version" +:+ ws1 +:+ "=" +:+ ws2 +:+ String dquote (semver d1 d2 d3 d5 +:+ String dquote "")
    /\ den PREFIXED_SEMVER_REGEX 0 w nl ∅ g.
Proof.
  intros Hw1 Hw2 ([? ?] & [? ?] & [? ?] & H5) Hnl.
  destruct d5 as [d5|]; [destruct H5|].
  - exists ("" +:+ ("v" +:+ "e" +:+ "r" +:+ "s" +:+ "i" +:+ "o" +:+ "n" +:+ "")
             +:+ ws1 +:+ "=" +:+ ws2 +:+ String dquote ""
             +:+ d1 +:+ "." +:+ d2 +:+ "." +:+ d3
             +:+ (("-" +:+ "r" +:+ "c" +:+ "." +:+ "") +:+ d5)
             +:+ String dquote "" +:+ "" +:+ "").
    eexists. split; [unfold semver; by str_norm|].
    unfold PREFIXED_SEMVER_REGEX. build_den.
    left. build_den.
  - exists ("" +:+ ("v" +:+ "e" +:+ "r" +:+ "s" +:+ "i" +:+ "o" +:+ "n" +:+ "")
             +:+ ws1 +:+ "=" +:+ ws2 +:+ String dquote ""
             +:+ d1 +:+ "." +:+ d2 +:+ "." +:+ d3 +:+ ""
             +:+ String dquote "" +:+ "" +:+ "").
    eexists. split; [unfold semver; by str_norm|].
    unfold PREFIXED_SEMVER_REGEX. build_den.
    right. build_den.
Qed.

(** ** One way to read a text *)

Lemma span_app (k : cls) (w rest : string) :
  all_cls k w = true -> stops k rest = true -> span k (w +:+ rest) = (w, rest).
Proof.
  intros Hw Hr. induction w as [|c w IH]; app_norm.
  - destruct rest as [|c r]; simpl in *; [done|]. by destruct (in_cls k c).
  - simpl in *. apply andb_true_iff in Hw as [-> Hw]. by rewrite IH.
Qed.

Lemma run_unique (k : cls) (w w' rest rest' : string) :
  all_cls k w = true -> all_cls k w' = true ->
  stops k rest = true -> stops k rest' = true ->
  w +:+ rest = w' +:+ rest' -> w = w' /\ rest = rest'.
Proof.
  intros Hw Hw' Hr Hr' Heq. apply (f_equal (span k)) in Heq.
  rewrite !span_app in Heq by done. by injection Heq.
Qed.

Lemma after_version_stops (t : string) : after_version t = true -> stops digit t = true.
Proof. destruct t as [|c t]; simpl; [done|]. by intros [? ?]%andb_true_iff. Qed.

Lemma semver_unique (d1 d2 d3 e1 e2 e3 : string) (d5 e5 : option string) (t t' : string) :
  numerals d1 d2 d3 d5 -> numerals e1 e2 e3 e5 ->
  after_version t = true -> after_version t' = true ->
  semver d1 d2 d3 d5 +:+ t = semver e1 e2 e3 e5 +:+ t' ->
  d1 = e1 /\ d2 = e2 /\ d3 = e3 /\ d5 = e5 /\ t = t'.
Proof.
  intros ([_ D1] & [_ D2] & [_ D3] & D5) ([_ E1] & [_ E2] & [_ E3] & E5) Ht Ht'.
  unfold semver. str_norm. intros Heq.
  apply (run_unique digit) in Heq as [<- [= Heq]]; try done.
  apply (run_unique digit) in Heq as [<- [= Heq]]; try done.
  assert (Hstop : forall (o : option string) (u : string),
             after_version u = true ->
             stops digit (match o with Some d => "-rc." +:+ d | None => "" end +:+ u) = true).
  { intros [d|] u Hu; [done|]. app_norm. by apply after_version_stops. }
  apply (run_unique digit) in Heq as [<- Heq]; try done; try by apply Hstop.
  split; [done|]. split; [done|]. split; [done|].
  destruct d5 as [d5|], e5 as [e5|]; revert Heq; str_norm.
  - intros [= Heq]. destruct D5 as [_ D5], E5 as [_ E5].
    apply (run_unique digit) in Heq as [<- <-]; try done; by apply after_version_stops.
  - intros Heq. subst t'. by simpl in Ht'.
  - intros Heq. subst t. by simpl in Ht.
  - by intros <-.
Qed.

Lemma final_newline_after_version (nl : string) :
  final_newline nl -> after_version nl = true.
Proof. by intros [-> | ->]. Qed.

Lemma standalone_match (s d1 d2 d3 : string) (d5 : option string) :
  standalone_text s d1 d2 d3 d5 ->
  re_match STANDALONE_SEMVER_REGEX s = Some (semver_groups d1 d2 d3 d5).
Proof.
  intros (nl & Hnum & Hnl & ->).
  destruct (standalone_den _ _ _ _ nl Hnum Hnl) as (w & g & -> & Hden).
  destruct (exec_complete _ _ _ _ _ _ (fun _ _ g => Some g) Hden) as [g0 Hg0]; [done|].
  unfold re_match. rewrite Hg0. f_equal.
  destruct (standalone_sound _ _ Hg0) as (e1 & e2 & e3 & e5 & (nl' & Hnum' & Hnl' & Heq) & ->).
  apply semver_unique in Heq as (-> & -> & -> & -> & _);
    auto using final_newline_after_version.
Qed.

Lemma prefixed_match (s d1 d2 d3 : string) (d5 : option string) :
  prefixed_text s d1 d2 d3 d5 ->
  re_match PREFIXED_SEMVER_REGEX s = Some (semver_groups d1 d2 d3 d5).
Proof.
  intros (ws1 & ws2 & nl & Hw1 & Hw2 & Hnum & Hnl & ->).
  destruct (prefixed_den _ _ _ _ _ _ nl Hw1 Hw2 Hnum Hnl) as (w & g & Hw & Hden).
  destruct (exec_complete _ _ _ _ _ _ (fun _ _ g => Some g) Hden) as [g0 Hg0]; [done|].
  assert (Hs : w +:+ nl
               = "version" +:+ ws1 +:+ "=" +:+ ws2
                   +:+ String dquote (semver d1 d2 d3 d5 +:+ String dquote nl))
    by (subst w; by str_norm).
  rewrite Hs in Hg0. unfold re_match. rewrite Hg0. f_equal.
  destruct (prefixed_sound _ _ Hg0)
    as (e1 & e2 & e3 & e5 & (ws1' & ws2' & nl' & Hw1' & Hw2' & Hnum' & Hnl' & Heq) & ->).
  revert Heq. app_norm. intros [= Heq].
  apply (run_unique space) in Heq as [_ [= Heq]]; try done.
  apply (run_unique space) in Heq as [_ [= Heq]]; try done.
  apply semver_unique in Heq as (-> & -> & -> & -> & _); done.
Qed.

Lemma standalone_starts_with_digit (s d1 d2 d3 : string) (d5 : option string) :
  standalone_text s d1 d2 d3 d5 -> stops digit s = false.
Proof.
  intros (nl & ([Hne Hd] & _) & _ & ->). unfold semver.
  destruct d1 as [|c d1]; [done|]. app_norm. simpl in *.
  apply andb_true_iff in Hd as [-> _]. done.
Qed.

Lemma prefixed_starts_with_v (s d1 d2 d3 : string) (d5 : option string) :
  prefixed_text s d1 d2 d3 d5 -> stops digit s = true.
Proof. intros (ws1 & ws2 & nl & _ & _ & _ & _ & ->). by app_norm. Qed.

(** [scan] finds a match exactly on the texts of the two forms, and its
    groups are the numerals of the text. *)
Lemma scan_spec (s : string) (g : groups) :
  scan s = Some g <->
  exists d1 d2 d3 d5,
    (standalone_text s d1 d2 d3 d5 \/ prefixed_text s d1 d2 d3 d5)
    /\ g = semver_groups d1 d2 d3 d5.
Proof.
  unfold scan. split.
  - destruct (re_match STANDALONE_SEMVER_REGEX s) as [g'|] eqn:E.
    + intros [= <-]. apply standalone_sound in E as (d1 & d2 & d3 & d5 & ? & ?).
      exists d1, d2, d3, d5. eauto.
    + intros (d1 & d2 & d3 & d5 & ? & ?)%prefixed_sound.
      exists d1, d2, d3, d5. eauto.
  - intros (d1 & d2 & d3 & d5 & [Ht | Ht] & ->).
    + by rewrite (standalone_match _ _ _ _ _ Ht).
    + destruct (re_match STANDALONE_SEMVER_REGEX s) as [g'|] eqn:E.
      * apply standalone_sound in E as (e1 & e2 & e3 & e5 & Ht' & _).
        apply standalone_starts_with_digit in Ht'.
        apply prefixed_starts_with_v in Ht. congruence.
      * by apply prefixed_match.
Qed.

(** ** Numbers *)

Lemma digit_char (c : ascii) (o : option Decimal.uint) :
  isdigit c = true -> is_Some o -> is_Some (uint_of_char c o).
Proof.
  intros Hc [u ->].
  destruct c as [[|] [|] [|] [|] [|] [|] [|] [|]]; try discriminate Hc; simpl; eauto.
Qed.

Lemma digits_uint (d : string) :
  all_cls digit d = true -> is_Some (NilEmpty.uint_of_string d).
Proof.
  induction d as [|c d IH]; intros Hd; [by eexists|].
  change (is_Some (uint_of_char c (NilEmpty.uint_of_string d))).
  apply andb_true_iff in Hd as [Hc Hd]. apply digit_char; [done|by apply IH].
Qed.

Lemma numeral_uint (d : string) :
  numeral d -> is_Some (NilZero.uint_of_string d).
Proof.
  intros [Hne Hd]. destruct d as [|c d]; [done|]. by apply digits_uint.
Qed.

Lemma int_numeral (d : string) :
  numeral d -> short d -> int (Some d) = Return (value d).
Proof.
  intros Hd Hs. unfold int, value.
  destruct (Nat.ltb_spec int_max_str_digits (String.length d)) as [Hlt|_].
  - unfold short in Hs. lia.
  - by destruct (numeral_uint d Hd) as [u ->].
Qed.

Lemma int_numeral_long (d : string) :
  ~ short d -> exists msg, int (Some d) = Throw (ValueError msg).
Proof.
  intros Hs. unfold int.
  destruct (Nat.ltb_spec int_max_str_digits (String.length d)) as [Hlt|Hle]; [eauto|].
  by destruct Hs.
Qed.

Lemma from_string_groups (s d1 d2 d3 : string) (d5 : option string) :
  scan s = Some (semver_groups d1 d2 d3 d5) ->
  numerals d1 d2 d3 d5 ->
  from_string s
  = (major ← int (Some d1);
     minor ← int (Some d2);
     patch ← int (Some d3);
     rc ← match d5 with
          | Some d => r ← int (Some d); Return (Some r)
          | None => Return None
          end;
     Return (Some (mk_version major minor patch rc))).
Proof.
  intros Hscan (_ & _ & _ & H5). unfold from_string. rewrite Hscan.
  assert (H1 : semver_groups d1 d2 d3 d5 !! 1%nat = Some d1) by (by destruct d5).
  assert (H2 : semver_groups d1 d2 d3 d5 !! 2%nat = Some d2) by (by destruct d5).
  assert (H3 : semver_groups d1 d2 d3 d5 !! 3%nat = Some d3) by (by destruct d5).
  assert (H5' : semver_groups d1 d2 d3 d5 !! 5%nat = d5) by (by destruct d5).
  rewrite H1, H2, H3, H5'.
  destruct d5 as [[|c d]|]; try done. by destruct H5.
Qed.

Lemma from_string_text (s d1 d2 d3 : string) (d5 : option string) :
  standalone_text s d1 d2 d3 d5 \/ prefixed_text s d1 d2 d3 d5 ->
  all_short d1 d2 d3 d5 ->
  from_string s
  = Return (Some (mk_version (value d1) (value d2) (value d3) (value <$> d5))).
Proof.
  intros Ht (S1 & S2 & S3 & S5).
  assert (Hnum : numerals d1 d2 d3 d5).
  { destruct Ht as [(nl & ? & _)|(ws1 & ws2 & nl & _ & _ & ? & _)]; done. }
  rewrite (from_string_groups s d1 d2 d3 d5); [|apply scan_spec; eauto 10|done].
  destruct Hnum as (N1 & N2 & N3 & N5).
  destruct d5 as [d|]; by rewrite !int_numeral by done.
Qed.

Lemma string_of_uint_digits (u : Decimal.uint) :
  all_cls digit (NilEmpty.string_of_uint u) = true.
Proof. induction u; simpl; done. Qed.

Lemma to_uint_nonnil (n : N) : N.to_uint n ≠ Decimal.Nil.
Proof. destruct n as [|p]; [done|]. apply DecimalPos.Unsigned.to_uint_nonnil. Qed.

Lemma dec_numeral (n : N) : numeral (dec n).
Proof.
  unfold dec, numeral. pose proof (to_uint_nonnil n) as Hn.
  destruct (N.to_uint n) as [|u|u|u|u|u|u|u|u|u|u] eqn:E; [done|..];
    (split; [done|apply (string_of_uint_digits (_ u))]).
Qed.

Lemma value_dec (n : N) : value (dec n) = Z.of_N n.
Proof.
  unfold value, dec. rewrite NilZero.usu by apply to_uint_nonnil.
  unfold Z.of_uint. change (Pos.of_uint (N.to_uint n)) with (N.of_uint (N.to_uint n)).
  by rewrite DecimalN.Unsigned.of_to.
Qed.

(** ** Characters of the texts *)

Lemma occurs_app (c : ascii) (a b : string) :
  occurs c (a +:+ b) = occurs c a || occurs c b.
Proof.
  induction a as [|x a IH]; app_norm; simpl; [done|].
  rewrite IH. by rewrite orb_assoc.
Qed.

Lemma occurs_digits (c : ascii) (d : string) :
  isdigit c = false -> all_cls digit d = true -> occurs c d = false.
Proof.
  intros Hc. induction d as [|x d IH]; simpl; [done|].
  intros [Hx Hd]%andb_true_iff. rewrite (IH Hd), orb_false_r.
  destruct (Ascii.eqb_spec c x) as [->|]; [congruence|done].
Qed.

Lemma occurs_spaces (c : ascii) (w : string) :
  isspace c = false -> all_cls space w = true -> occurs c w = false.
Proof.
  intros Hc. induction w as [|x w IH]; simpl; [done|].
  intros [Hx Hw]%andb_true_iff. rewrite (IH Hw), orb_false_r.
  destruct (Ascii.eqb_spec c x) as [->|]; [congruence|done].
Qed.

Lemma semver_no_m (d1 d2 d3 : string) (d5 : option string) :
  numerals d1 d2 d3 d5 -> occurs "m" (semver d1 d2 d3 d5) = false.
Proof.
  intros ([_ H1] & [_ H2] & [_ H3] & H5). unfold semver.
  rewrite !occurs_app.
  rewrite (occurs_digits "m" d1), (occurs_digits "m" d2), (occurs_digits "m" d3) by done.
  destruct d5 as [d|]; [|done]. destruct H5 as [_ H5].
  by rewrite occurs_app, (occurs_digits "m" d).
Qed.

(** No text that scans has the letter [m] in it. *)
Lemma scan_no_m (s : string) : occurs "m" s = true -> scan s = None.
Proof.
  intros Hm. destruct (scan s) as [g|] eqn:E; [|done].
  apply scan_spec in E as (d1 & d2 & d3 & d5 & [Ht | Ht] & _).
  - destruct Ht as (nl & Hnum & Hnl & ->).
    rewrite occurs_app, semver_no_m in Hm by done. by destruct Hnl as [-> | ->].
  - destruct Ht as (ws1 & ws2 & nl & Hw1 & Hw2 & Hnum & Hnl & ->).
    revert Hm. app_norm. simpl.
    rewrite occurs_app, (occurs_spaces "m" ws1) by done. app_norm. simpl.
    rewrite occurs_app, (occurs_spaces "m" ws2) by done. simpl.
    rewrite occurs_app, semver_no_m by done. by destruct Hnl as [-> | ->].
Qed.

(** ** Lines *)

Lemma newline_last_tail (c : ascii) (s : string) :
  newline_last (String c s) = true -> newline_last s = true.
Proof. destruct s as [|c' s]; simpl; [done|]. by intros [_ ?]%andb_true_iff. Qed.

Lemma readlines_newline_last (text line : string) :
  line ∈ readlines text -> newline_last line = true.
Proof.
  revert line. induction text as [|c rest IH]; intros line; simpl.
  - by intros ?%elem_of_nil.
  - destruct (Ascii.eqb_spec c newline) as [->|Hc].
    + intros [->|Hin]%elem_of_cons; [done|by apply IH].
    + destruct (readlines rest) as [|first lines] eqn:E.
      * by intros ->%list_elem_of_singleton.
      * intros [->|Hin]%elem_of_cons.
        -- assert (Hf : newline_last first = true) by (apply IH; by left).
           destruct first as [|c' f]; [done|].
           change (negb (Ascii.eqb c newline) && newline_last (String c' f) = true).
           rewrite Hf. by destruct (Ascii.eqb_spec c newline).
        -- apply IH. by right.
Qed.

Lemma lstrip_newline_last (s : string) :
  newline_last s = true -> newline_last (lstrip s) = true.
Proof.
  induction s as [|c s IH]; [done|]. intros H. simpl lstrip.
  destruct (isspace c); [|done]. apply IH. by eapply newline_last_tail.
Qed.

Lemma occurs_one (c x : ascii) : c ≠ x -> occurs c (String x "") = false.
Proof. intros Hne. cbn [occurs]. by destruct (Ascii.eqb_spec c x). Qed.

Lemma newline_last_head (c c' : ascii) (s : string) :
  newline_last (String c (String c' s)) = true -> newline ≠ c.
Proof.
  cbn [newline_last]. intros [Hc _]%andb_true_iff.
  destruct (Ascii.eqb_spec c newline) as [->|]; [done|congruence].
Qed.

Lemma rstrip_no_newline (s : string) :
  newline_last s = true -> occurs newline (rstrip s) = false.
Proof.
  induction s as [|c s IH]; [done|]. intros H.
  pose proof (IH (newline_last_tail _ _ H)) as IH'. cbn [rstrip].
  destruct s as [|c2 s].
  - cbn [rstrip]. destruct (isspace c) eqn:Ec; [done|].
    apply occurs_one. intros <-. by vm_compute in Ec.
  - pose proof (newline_last_head _ _ _ H) as Hne.
    destruct (rstrip (String c2 s)) as [|c' r].
    + destruct (isspace c); [done|]. by apply occurs_one.
    + cbn [occurs] in *. rewrite IH', orb_false_r.
      by destruct (Ascii.eqb_spec newline c).
Qed.

(** A stripped line of a file has no newline in it. *)
Lemma strip_line_no_newline (text line : string) :
  line ∈ readlines text -> occurs newline (strip line) = false.
Proof.
  intros Hin. unfold strip.
  by apply rstrip_no_newline, lstrip_newline_last, readlines_newline_last with text.
Qed.

Lemma lstrip_keeps (c : ascii) (s : string) :
  isspace c = false -> occurs c s = true -> occurs c (lstrip s) = true.
Proof.
  intros Hc. induction s as [|x s IH]; [done|]. simpl.
  destruct (isspace x) eqn:Ex; [|done].
  destruct (Ascii.eqb_spec c x) as [->|]; [congruence|]. apply IH.
Qed.

Lemma rstrip_keeps (c : ascii) (s : string) :
  isspace c = false -> occurs c s = true -> occurs c (rstrip s) = true.
Proof.
  intros Hc. induction s as [|x s IH]; [done|]. simpl.
  destruct (Ascii.eqb_spec c x) as [<-|Hne]; simpl.
  - intros _. rewrite Hc. destruct (rstrip s); simpl; by rewrite Ascii.eqb_refl.
  - intros H. specialize (IH H). destruct (rstrip s) as [|c' r]; [done|].
    simpl in *. rewrite IH. by rewrite orb_true_r.
Qed.

Lemma strip_keeps (c : ascii) (s : string) :
  isspace c = false -> occurs c s = true -> occurs c (strip s) = true.
Proof. intros Hc H. by apply rstrip_keeps, lstrip_keeps. Qed.

Lemma occurs_writelines (c : ascii) (lines : list string) :
  occurs c (writelines lines) = true <-> exists line, line ∈ lines /\ occurs c line = true.
Proof.
  unfold writelines. induction lines as [|l ls IH].
  - split; [done|]. by intros (? & ?%elem_of_nil & _).
  - assert (Hc : String.concat "" (l :: ls) = l +:+ String.concat "" ls).
    { destruct ls; simpl; [by rewrite sapp_nil_r|done]. }
    rewrite Hc, occurs_app, orb_true_iff, IH. split.
    + intros [H|(x & Hx & H)]; [exists l|exists x]; split; try done; [by left|by right].
    + intros (x & [->|Hx]%elem_of_cons & H); eauto.
Qed.

Lemma readlines_one_line (text : string) :
  text ≠ "" -> occurs newline text = false -> readlines text = [text].
Proof.
  induction text as [|c t IH]; [done|]. intros _ H. simpl in *.
  apply orb_false_iff in H as [Hc Ht].
  destruct (Ascii.eqb_spec c newline) as [->|_]; [done|].
  destruct t as [|c' t']; [done|]. by rewrite IH.
Qed.

(** ** What is written *)

Lemma repr_int_no_newline (z : Z) (t : string) :
  repr_int z = Return t -> occurs newline t = false /\ occurs "m" t = false.
Proof.
  unfold repr_int.
  destruct (_ <? _)%nat; [done|]. intros [= <-].
  assert (Hd : forall c, isdigit c = false ->
             occurs c (NilZero.string_of_uint (N.to_uint (Z.abs_N z))) = false).
  { intros c Hc. apply occurs_digits; [done|]. apply dec_numeral. }
  destruct (z <? 0)%Z; cbn [occurs]; rewrite !Hd by done; done.
Qed.

Lemma str_shape (v : Version) (shown : string) :
  str v = Return shown ->
  occurs "m" shown = true /\ occurs newline shown = false.
Proof.
  unfold str, mbind, outcome_bind.
  destruct (repr_int (major v)) as [a|] eqn:Ea; [|done].
  destruct (repr_int (minor v)) as [b|] eqn:Eb; [|done].
  destruct (repr_int (patch v)) as [c|] eqn:Ec; [|done].
  destruct (match rc v with Some r => repr_int r | None => Return "None" end)
    as [d|] eqn:Ed; [|done].
  intros [= <-]. split; [by app_norm|].
  apply repr_int_no_newline in Ea as [Ea _], Eb as [Eb _], Ec as [Ec _].
  assert (Hd : occurs newline d = false).
  { destruct (rc v); [by apply repr_int_no_newline in Ed as [? _]|by injection Ed as <-]. }
  app_norm. cbn [occurs]. rewrite !occurs_app, Ea. app_norm. cbn [occurs].
  rewrite !occurs_app, Eb. app_norm. cbn [occurs].
  rewrite !occurs_app, Ec. app_norm. cbn [occurs]. by rewrite Hd.
Qed.

Lemma version_line_shape (shown : string) :
  occurs "m" shown = true -> occurs newline shown = false ->
  occurs "m" (version_line shown) = true /\ occurs newline (version_line shown) = false.
Proof.
  intros Hm Hn. unfold version_line. app_norm. cbn [occurs].
  rewrite !occurs_app, Hm, Hn. split; [by rewrite !orb_true_r|done].
Qed.

Lemma update_spec (fs fs' : filesystem) (p : string) (nv : Version) :
  update_version_in_file fs p nv = Return fs' ->
  exists shown text,
    str nv = Return shown /\ fs !! p = Some (File text)
    /\ fs' = <[p := File (writelines
                           (map (fun line => if is_match line then version_line shown else line)
                                (map strip (readlines text))))]> fs.
Proof.
  unfold update_version_in_file, mbind, outcome_bind, open_read.
  destruct (str nv) as [shown|]; [|done].
  destruct (fs !! p) as [[text|]|]; try done.
  intros [= <-]. by exists shown, text.
Qed.

Lemma update_runs (fs : filesystem) (p text shown : string) (nv : Version) :
  str nv = Return shown -> fs !! p = Some (File text) ->
  exists fs', update_version_in_file fs p nv = Return fs'.
Proof.
  intros Hs Hp. unfold update_version_in_file, mbind, outcome_bind, open_read.
  rewrite Hs, Hp. eauto.
Qed.

Lemma get_version_spec (fs : filesystem) (p : string) (r : option Version) :
  get_version_from_file fs p = Return r ->
  exists text,
    fs !! p = Some (File text)
    /\ match r with
       | Some v => exists line, line ∈ readlines text /\ is_match (strip line) = true
       | None => forall line, line ∈ readlines text -> is_match (strip line) = false
       end.
Proof.
  unfold get_version_from_file, mbind, outcome_bind, open_read.
  destruct (fs !! p) as [[text|]|]; try done.
  intros H. exists text. split; [done|].
  destruct (find is_match (map strip (readlines text))) as [l|] eqn:E.
  - apply find_some in E as [Hin Hl].
    apply list_elem_of_In, list_elem_of_fmap in Hin as (line & -> & Hin).
    destruct r as [v|]; [eauto|].
    unfold from_string, is_match in *. destruct (scan (strip line)); [|done].
    repeat match type of H with
           | context [int ?x] => destruct (int x); [|done]; cbn in H
           | context [match ?x with _ => _ end] => destruct x; try done; cbn in H
           end.
  - injection H as <-. intros line Hin.
    apply (find_none _ _ E). apply list_elem_of_In, list_elem_of_fmap. eauto.
Qed.

Lemma rescan_after_update (fs fs' : filesystem) (p : string) (v nv : Version) :
  get_version_from_file fs p = Return (Some v) ->
  update_version_in_file fs p nv = Return fs' ->
  get_version_from_file fs' p = Return None.
Proof.
  intros (text & Hp & line & Hin & Hline)%get_version_spec
         (shown & text' & Hs & Hp' & ->)%update_spec.
  rewrite Hp in Hp'. injection Hp' as <-.
  destruct (str_shape _ _ Hs) as [Hm Hn].
  destruct (version_line_shape _ Hm Hn) as [Hlm Hln].
  set (lines := map (fun l => if is_match l then version_line shown else l)
                    (map strip (readlines text))).
  assert (Hin' : version_line shown ∈ lines).
  { unfold lines. apply list_elem_of_fmap. exists (strip line). rewrite Hline.
    split; [done|]. apply list_elem_of_fmap. eauto. }
  assert (Htm : occurs "m" (writelines lines) = true) by (apply occurs_writelines; eauto).
  assert (Htn : occurs newline (writelines lines) = false).
  { destruct (occurs newline (writelines lines)) eqn:E; [|done].
    apply occurs_writelines in E as (l & Hl & Ho). unfold lines in Hl.
    apply list_elem_of_fmap in Hl as (l0 & -> & Hl0).
    apply list_elem_of_fmap in Hl0 as (l1 & -> & Hl1).
    destruct (is_match (strip l1)); [congruence|].
    by rewrite (strip_line_no_newline text) in Ho. }
  unfold get_version_from_file, mbind, outcome_bind, open_read.
  rewrite lookup_insert_eq.
  rewrite readlines_one_line; [|by intros E; rewrite E in Htm|done].
  cbn [map find]. unfold is_match at 1.
  by rewrite scan_no_m by (by apply strip_keeps).
Qed.

Lemma get_version_insert_ne (fs : filesystem) (p q : string) (n : node) :
  p ≠ q -> get_version_from_file (<[q := n]> fs) p = get_version_from_file fs p.
Proof.
  intros Hne. unfold get_version_from_file, open_read. by rewrite lookup_insert_ne.
Qed.

Section main_properties.
Variable joinpath : string -> string -> string.

Lemma main_first_file (project_dir : string) (bump_type : BumpType)
      (w : world) (v : Version) (shown : string) :
  get_version_from_file (fs w) (joinpath project_dir version_file) = Return (Some v) ->
  str (bump v bump_type) = Return shown ->
  exists fs1,
    update_version_in_file (fs w) (joinpath project_dir version_file) (bump v bump_type)
    = Return fs1
    /\ main joinpath project_dir bump_type w
       = main_loop joinpath project_dir bump_type [pyproject_file]
           (Some v) (Some (bump v bump_type))
           (mk_world fs1 (printed w ++ [msg_bumped version_file shown])).
Proof.
  intros Hget Hstr.
  destruct (get_version_spec _ _ _ Hget) as (text & Hp & _).
  destruct (update_runs _ _ _ _ _ Hstr Hp) as [fs1 Hup].
  exists fs1. split; [done|].
  unfold main, files. cbn [main_loop]. fold version_file pyproject_file.
  rewrite bool_decide_false by (by rewrite Hp).
  rewrite Hget. rewrite bool_decide_false by (intros Hn; by apply Hn).
  by rewrite Hup, Hstr.
Qed.
End main_properties.

(** X11. A coarser bump absorbs a finer one made before it: bumping the
    release candidate, the patch or the minor number and then a coarser
    part gives the version the coarser bump alone gives. *)
Theorem bump_absorbs (v : Version) (finer coarser : BumpType) :
  (rank finer < rank coarser)%nat ->
  bump (bump v finer) coarser = bump v coarser.
Proof. destruct finer, coarser; simpl; try lia; done. Qed.

(** X12. Release-candidate bumps count up from the current candidate
    number, or from zero when there is none, and leave the three numbers of
    the version alone. *)
Theorem bump_rc_counts (v : Version) (n : nat) :
  Nat.iter (S n) (fun x => bump x RC) v
  = mk_version (major v) (minor v) (patch v)
      (Some (default 0%Z (rc v) + Z.of_nat (S n))%Z).
Proof.
  induction n as [|n IH].
  - simpl. destruct v as [a b c [r|]]; simpl; [|done].
    by destruct (Z.eqb_spec r 0) as [->|].
  - rewrite Nat.iter_succ, IH. unfold bump. cbn [major minor patch rc].
    f_equal. f_equal.
    destruct (Z.eqb_spec (default 0%Z (rc v) + Z.of_nat (S n)) 0); lia.
Qed.

(** X13. [scan] matches exactly the texts [M.m.p] and [M.m.p-rc.r] of
    digit runs, alone or quoted after [version], [=] and any white space
    around the [=], each with at most one final newline after it and
    nothing before it; the groups of the match are the digit runs. *)
Theorem scan_matches_iff (s : string) (g : groups) :
  scan s = Some g <->
  exists d1 d2 d3 d5,
    (standalone_text s d1 d2 d3 d5 \/ prefixed_text s d1 d2 d3 d5)
    /\ g = semver_groups d1 d2 d3 d5.
Proof. apply scan_spec. Qed.

Lemma dec_numerals (M m p : N) (r : option N) :
  numerals (dec M) (dec m) (dec p) (dec <$> r).
Proof.
  repeat split; try apply dec_numeral. destruct r; [apply dec_numeral|done].
Qed.

(** X14. [from_string] reads the decimal text of natural numbers back as
    those numbers: from the bare version text, from the same with a final
    newline and from the quoted [version = ...] line, as long as no numeral
    is over CPython's digit limit. *)
Theorem from_string_reads_decimals (M m p : N) (r : option N) :
  all_short (dec M) (dec m) (dec p) (dec <$> r) ->
  let text := semver (dec M) (dec m) (dec p) (dec <$> r) in
  let v := mk_version (Z.of_N M) (Z.of_N m) (Z.of_N p) (Z.of_N <$> r) in
  from_string text = Return (Some v)
  /\ from_string (text +:+ String newline "") = Return (Some v)
  /\ from_string (version_line text) = Return (Some v).
Proof.
  intros Hs text v.
  assert (Hv : mk_version (value (dec M)) (value (dec m)) (value (dec p))
                 (value <$> (dec <$> r)) = v).
  { unfold v. rewrite !value_dec. f_equal. destruct r; simpl; [|done]. by rewrite value_dec. }
  pose proof (dec_numerals M m p r) as Hn.
  rewrite <- Hv. repeat split; apply from_string_text; try done.
  - left. exists "". unfold final_newline. rewrite sapp_nil_r. eauto.
  - left. exists (String newline ""). unfold final_newline. eauto.
  - right. exists " ", " ", "". unfold final_newline, version_line.
    split; [done|]. split; [done|]. split; [done|]. split; [by left|done].
Qed.

Lemma text_lengths (s d1 d2 d3 : string) (d5 : option string) :
  standalone_text s d1 d2 d3 d5 \/ prefixed_text s d1 d2 d3 d5 ->
  (String.length s <= int_max_str_digits)%nat ->
  all_short d1 d2 d3 d5.
Proof.
  intros Ht Hs. unfold all_short, short.
  assert (Hl : (String.length (semver d1 d2 d3 d5) <= String.length s)%nat).
  { destruct Ht as [(nl & _ & _ & ->)|(ws1 & ws2 & nl & _ & _ & _ & _ & ->)].
    - rewrite sapp_length. lia.
    - rewrite !sapp_length. cbn [String.length]. rewrite !sapp_length. lia. }
  unfold semver in Hl. rewrite !sapp_length in Hl.
  destruct d5 as [d|]; [rewrite sapp_length in Hl|]; cbn [String.length] in Hl; lia.
Qed.

Lemma int_cases (d : string) :
  numeral d ->
  int (Some d) = Return (value d) \/ exists msg, int (Some d) = Throw (ValueError msg).
Proof.
  intros Hd. destruct (decide (short d)) as [Hs|Hs].
  - left. by apply int_numeral.
  - right. by apply int_numeral_long.
Qed.

(** X15. [from_string] returns on every text of at most 4300 characters,
    and the only exception it ever raises is the [ValueError] of [int] on
    a digit run over the limit: it never calls [int] on a missing group. *)
Theorem from_string_raises_only_overlong (s : string) :
  ((String.length s <= int_max_str_digits)%nat -> exists r, from_string s = Return r)
  /\ (forall e, from_string s = Throw e -> exists msg, e = ValueError msg).
Proof.
  destruct (scan s) as [g|] eqn:E.
  2:{ unfold from_string. rewrite E. split; [eauto|done]. }
  pose proof E as (d1 & d2 & d3 & d5 & Ht & ->)%scan_spec.
  assert (Hn : numerals d1 d2 d3 d5).
  { destruct Ht as [(nl & ? & _)|(ws1 & ws2 & nl & _ & _ & ? & _)]; done. }
  split.
  - intros Hs. rewrite (from_string_text s d1 d2 d3 d5); eauto using text_lengths.
  - intros e. rewrite (from_string_groups _ _ _ _ _ E Hn).
    destruct Hn as (N1 & N2 & N3 & N5). unfold mbind, outcome_bind.
    destruct (int_cases _ N1) as [-> | [msg ->]]; [|intros [= <-]; eauto].
    destruct (int_cases _ N2) as [-> | [msg ->]]; [|intros [= <-]; eauto].
    destruct (int_cases _ N3) as [-> | [msg ->]]; [|intros [= <-]; eauto].
    destruct d5 as [d|]; [|done].
    destruct (int_cases _ N5) as [-> | [msg ->]]; [done|intros [= <-]; eauto].
Qed.

(** X16. The text [update_version_in_file] writes for a version is the
    model's field listing, [major=.. minor=.. patch=.. rc=..], behind
    [version = ]: neither pattern matches that line, and [from_string]
    returns [None] on it. *)
Theorem written_line_never_scans (v : Version) (shown : string) :
  str v = Return shown ->
  scan (version_line shown) = None
  /\ from_string (version_line shown) = Return None.
Proof.
  intros [Hm Hn]%str_shape. destruct (version_line_shape _ Hm Hn) as [Hlm _].
  unfold from_string. by rewrite scan_no_m.
Qed.

(** X17. [update_version_in_file] strips every line, its newline
    included, and writes the lines one after the other: the file it leaves
    holds no newline at all. Every other file stays as it was. *)
Theorem update_collapses_lines (fs fs' : filesystem) (p : string) (nv : Version) :
  update_version_in_file fs p nv = Return fs' ->
  (exists text, fs' !! p = Some (File text) /\ occurs newline text = false)
  /\ (forall q, q ≠ p -> fs' !! q = fs !! q).
Proof.
  intros (shown & text & Hs & Hp & ->)%update_spec. split.
  - eexists. split; [apply lookup_insert_eq|].
    destruct (str_shape _ _ Hs) as [Hm Hn].
    destruct (version_line_shape _ Hm Hn) as [_ Hln].
    match goal with |- occurs _ ?t = false => destruct (occurs newline t) eqn:E end; [|done].
    apply occurs_writelines in E as (l & Hl & Ho).
    apply list_elem_of_fmap in Hl as (l0 & -> & Hl0).
    apply list_elem_of_fmap in Hl0 as (l1 & -> & Hl1).
    destruct (is_match (strip l1)); [congruence|].
    by rewrite (strip_line_no_newline text) in Ho.
  - intros q Hq. by rewrite lookup_insert_ne.
Qed.

(** X18. Once [update_version_in_file] has run on a file in which
    [get_version_from_file] found a version, [get_version_from_file] finds
    none in it. *)
Theorem version_lost_after_update (fs fs' : filesystem) (p : string) (v nv : Version) :
  get_version_from_file fs p = Return (Some v) ->
  update_version_in_file fs p nv = Return fs' ->
  get_version_from_file fs' p = Return None.
Proof. apply rescan_after_update. Qed.

(** X19. On a text file [get_version_from_file] returns [None] exactly
    when no stripped line of the file scans: a line that scans gives a
    version or an exception, never [None]. *)
Theorem get_version_none_iff (fs : filesystem) (p text : string) :
  fs !! p = Some (File text) ->
  (get_version_from_file fs p = Return None
   <-> forall line, line ∈ readlines text -> scan (strip line) = None).
Proof.
  intros Hp. split.
  - intros (text' & Hp' & Hall)%get_version_spec. rewrite Hp in Hp'. injection Hp' as <-.
    intros line Hin. specialize (Hall line Hin). unfold is_match in Hall.
    by destruct (scan (strip line)).
  - intros Hall. unfold get_version_from_file, mbind, outcome_bind, open_read. rewrite Hp.
    destruct (find is_match (map strip (readlines text))) as [l|] eqn:E; [|done].
    apply find_some in E as [Hin Hl].
    apply list_elem_of_In, list_elem_of_fmap in Hin as (line & -> & Hin).
    unfold is_match in Hl. by rewrite (Hall line Hin) in Hl.
Qed.

Section main_theorems.
Variable joinpath : string -> string -> string.

Lemma main_second_file_ok (project_dir : string) (bump_type : BumpType)
      (fs1 : filesystem) (out : list string) (v : Version) (shown : string) :
  get_version_from_file fs1 (joinpath project_dir pyproject_file) = Return (Some v) ->
  str (bump v bump_type) = Return shown ->
  exists fs2,
    update_version_in_file fs1 (joinpath project_dir pyproject_file) (bump v bump_type)
    = Return fs2
    /\ main_loop joinpath project_dir bump_type [pyproject_file]
         (Some v) (Some (bump v bump_type)) (mk_world fs1 out)
       = (Return tt, mk_world fs2 (out ++ [msg_bumped pyproject_file shown])).
Proof.
  intros Hget Hstr.
  destruct (get_version_spec _ _ _ Hget) as (text & Hp & _).
  destruct (update_runs _ _ _ _ _ Hstr Hp) as [fs2 Hup].
  exists fs2. split; [done|].
  cbn [main_loop fs printed].
  rewrite bool_decide_false by (by rewrite Hp).
  rewrite Hget. rewrite bool_decide_false by (intros Hn; by apply Hn).
  by rewrite Hup, Hstr.
Qed.

Lemma main_success (project_dir : string) (bump_type : BumpType)
        (w : world) (v : Version) (shown : string) :
  joinpath project_dir version_file ≠ joinpath project_dir pyproject_file ->
  get_version_from_file (fs w) (joinpath project_dir version_file) = Return (Some v) ->
  get_version_from_file (fs w) (joinpath project_dir pyproject_file) = Return (Some v) ->
  str (bump v bump_type) = Return shown ->
  exists fs1 fs2,
    update_version_in_file (fs w) (joinpath project_dir version_file) (bump v bump_type)
    = Return fs1
    /\ update_version_in_file fs1 (joinpath project_dir pyproject_file) (bump v bump_type)
       = Return fs2
    /\ main joinpath project_dir bump_type w
       = (Return tt,
          mk_world fs2 (printed w ++ [msg_bumped version_file shown;
                                      msg_bumped pyproject_file shown])).
Proof.
  intros Hne Hg1 Hg2 Hstr.
  destruct (main_first_file joinpath _ _ _ _ _ Hg1 Hstr) as (fs1 & Hup1 & ->).
  pose proof Hup1 as (shown' & text & _ & _ & Hfs1)%update_spec.
  assert (Hg2' : get_version_from_file fs1 (joinpath project_dir pyproject_file)
                 = Return (Some v)).
  { rewrite Hfs1, get_version_insert_ne; done. }
  destruct (main_second_file_ok _ bump_type fs1
              (printed w ++ [msg_bumped version_file shown]) _ _ Hg2' Hstr)
    as (fs2 & Hup2 & ->).
  exists fs1, fs2. by rewrite <- app_assoc.
Qed.

(** X20. When both files hold the same version, [main] returns normally:
    it rewrites the version file and then [pyproject.toml] with the bumped
    version and prints one line for each, in that order. *)
Theorem main_bumps_both (project_dir : string) (bump_type : BumpType)
        (w : world) (v : Version) (shown : string) :
  joinpath project_dir version_file ≠ joinpath project_dir pyproject_file ->
  get_version_from_file (fs w) (joinpath project_dir version_file) = Return (Some v) ->
  get_version_from_file (fs w) (joinpath project_dir pyproject_file) = Return (Some v) ->
  str (bump v bump_type) = Return shown ->
  exists fs1 fs2,
    update_version_in_file (fs w) (joinpath project_dir version_file) (bump v bump_type)
    = Return fs1
    /\ update_version_in_file fs1 (joinpath project_dir pyproject_file) (bump v bump_type)
       = Return fs2
    /\ main joinpath project_dir bump_type w
       = (Return tt,
          mk_world fs2 (printed w ++ [msg_bumped version_file shown;
                                      msg_bumped pyproject_file shown])).
Proof. apply main_success. Qed.

(** X21. [main] checks and rewrites file by file. When the version file
    holds a version and [pyproject.toml] is missing, or holds another
    version or none, [main] raises [BadParameter] only after it has
    rewritten the version file and printed its line. *)
Theorem main_fails_after_first_write (project_dir : string) (bump_type : BumpType)
        (w : world) (v : Version) (shown : string) :
  joinpath project_dir version_file ≠ joinpath project_dir pyproject_file ->
  get_version_from_file (fs w) (joinpath project_dir version_file) = Return (Some v) ->
  str (bump v bump_type) = Return shown ->
  exists fs1,
    update_version_in_file (fs w) (joinpath project_dir version_file) (bump v bump_type)
    = Return fs1
    /\ fs1 !! joinpath project_dir version_file ≠ fs w !! joinpath project_dir version_file
    /\ (fs w !! joinpath project_dir pyproject_file = None ->
        main joinpath project_dir bump_type w
        = (Throw (BadParameter (msg_does_not_exist (joinpath project_dir pyproject_file))),
           mk_world fs1 (printed w ++ [msg_bumped version_file shown])))
    /\ (forall other,
          get_version_from_file (fs w) (joinpath project_dir pyproject_file) = Return other ->
          other ≠ Some v ->
          main joinpath project_dir bump_type w
          = (Throw (BadParameter (msg_different_version pyproject_file)),
             mk_world fs1 (printed w ++ [msg_bumped version_file shown]))).
Proof.
  intros Hne Hg1 Hstr.
  destruct (main_first_file joinpath _ _ _ _ _ Hg1 Hstr) as (fs1 & Hup1 & ->).
  exists fs1. split; [done|].
  pose proof Hup1 as (shown' & text & Hs' & Hp1 & Hfs1)%update_spec.
  split; [|split].
  - intros Hsame.
    pose proof (rescan_after_update _ _ _ _ _ Hg1 Hup1) as Hnone.
    unfold get_version_from_file, open_read in Hnone, Hg1.
    rewrite Hsame in Hnone. congruence.
  - intros Hmiss. cbn [main_loop fs printed].
    rewrite bool_decide_true; [done|].
    rewrite Hfs1, lookup_insert_ne; done.
  - intros other Hg2 Hother. cbn [main_loop fs printed].
    assert (Hex : fs1 !! joinpath project_dir pyproject_file ≠ None).
    { destruct (get_version_spec _ _ _ Hg2) as (t & Ht & _).
      rewrite Hfs1, lookup_insert_ne by done. by rewrite Ht. }
    rewrite bool_decide_false by done.
    rewrite Hfs1, get_version_insert_ne, Hg2 by done.
    destruct other as [v'|]; by rewrite bool_decide_true by congruence.
Qed.

Lemma main_no_version (project_dir : string) (bump_type : BumpType) (w : world) :
  get_version_from_file (fs w) (joinpath project_dir version_file) = Return None ->
  main joinpath project_dir bump_type w
  = (Throw (BadParameter (msg_no_version version_file)), w).
Proof.
  intros Hg. destruct (get_version_spec _ _ _ Hg) as (text & Hp & _).
  unfold main, files. cbn [main_loop]. fold version_file.
  rewrite bool_decide_false by (by rewrite Hp).
  rewrite Hg. by rewrite bool_decide_false by (intros Hn; by apply Hn).
Qed.

(** X22. When the version file is missing, or is there without a version
    line, [main] raises [BadParameter] before it writes or prints
    anything. *)
Theorem main_writes_nothing (project_dir : string) (bump_type : BumpType) (w : world) :
  (fs w !! joinpath project_dir version_file = None ->
   main joinpath project_dir bump_type w
   = (Throw (BadParameter (msg_does_not_exist (joinpath project_dir version_file))), w))
  /\ (get_version_from_file (fs w) (joinpath project_dir version_file) = Return None ->
      main joinpath project_dir bump_type w
      = (Throw (BadParameter (msg_no_version version_file)), w)).
Proof.
  split; [|apply main_no_version].
  intros Hmiss. unfold main, files. cbn [main_loop]. fold version_file.
  by rewrite bool_decide_true.
Qed.

(** X23. A run of [main] that succeeds cannot be repeated: on the files
    it leaves, [main] with any bump type raises the no-version error for
    the version file and changes nothing. *)
Theorem main_not_repeatable (project_dir : string) (bump_type : BumpType)
        (w : world) (v : Version) (shown : string) :
  joinpath project_dir version_file ≠ joinpath project_dir pyproject_file ->
  get_version_from_file (fs w) (joinpath project_dir version_file) = Return (Some v) ->
  get_version_from_file (fs w) (joinpath project_dir pyproject_file) = Return (Some v) ->
  str (bump v bump_type) = Return shown ->
  exists w',
    main joinpath project_dir bump_type w = (Return tt, w')
    /\ forall again : BumpType,
        main joinpath project_dir again w'
        = (Throw (BadParameter (msg_no_version version_file)), w').
Proof.
  intros Hne Hg1 Hg2 Hstr.
  destruct (main_success _ _ _ _ _ Hne Hg1 Hg2 Hstr) as (fs1 & fs2 & Hup1 & Hup2 & ->).
  eexists. split; [done|]. intros again. apply main_no_version. cbn [fs].
  pose proof Hup2 as (shown' & text & _ & _ & ->)%update_spec.
  rewrite get_version_insert_ne by done.
  by apply (rescan_after_update _ _ _ _ _ Hg1 Hup1).
Qed.
End main_theorems.
End bump_tool.

(** * The further theorems at the sample inputs *)

Lemma validate_returns_iff_witness :
  exists v, TaskDefinition.validate empty_params_definition tuned_task run_schema = Ok v.
Proof.
  apply (proj2 (proj1 (validate_returns_iff empty_params_definition tuned_task run_schema))).
  split; [by left|]. split.
  - split; [done|]. split; [done|]. by intros raw param_schema [= <-].
  - apply (bool_decide_unpack _). by vm_compute.
Defined.

Lemma validate_fail_fast_witness :
  TaskDefinition.validate learning_rate_definition strict_task run_schema
  = Raise (TaskDefinitionError (msg_invalid_params strict_task)).
Proof.
  apply (proj2 (validate_fail_fast learning_rate_definition strict_task run_schema)
           ("lr", VInt 1) [] no_params); [by left|reflexivity|reflexivity|reflexivity].
Defined.

Lemma validate_parameter_order_witness :
  TaskDefinition.validate run_definition (Task.mk "run" run_callable None) run_schema
  = TaskDefinition.validate run_definition (Task.mk "run" run_callable_reordered None)
      run_schema.
Proof.
  apply (validate_parameter_order run_definition run_schema "run"
           run_callable run_callable_reordered None).
  intros x. simpl. rewrite !elem_of_cons. tauto.
Defined.

Lemma validated_checks_declared_outputs_witness :
  ValidatedTaskDefinition.validate_outputs elements
    (ValidatedTaskDefinition.mk "run" None {["x"]} {["y"]}) [("y", VInt 1)] = Ok tt.
Proof.
  apply (proj2 (validated_checks_declared_outputs run_definition run_task run_schema
                  (ValidatedTaskDefinition.mk "run" None {["x"]} {["y"]})
                  elements [("y", VInt 1)] ltac:(by vm_compute))).
  apply (bool_decide_unpack _). by vm_compute.
Defined.

Lemma define_default_name_witness :
  Task.name (Task.define nameless (Some "") None) = "train"
  /\ TaskDefinition.validate run_definition (Task.define nameless (Some "") None) run_schema
     = Raise (TaskDefinitionError "Task train is missing the 'tracker' parameter.").
Proof.
  destruct (define_default_name run_definition run_schema nameless (Some "") None
              (or_intror eq_refl)) as [Hname Hraise].
  split; [exact Hname|]. apply Hraise.
  apply (bool_decide_unpack _). by vm_compute.
Defined.

Lemma from_unvalidated_always_raises_witness :
  ValidatedTaskSchema.from_unvalidated project_fs run_schema
  = Raise (TaskDefinitionError "Invalid task schema.").
Proof.
  apply (proj1 (proj2 (from_unvalidated_always_raises project_fs run_schema))).
  reflexivity.
Defined.

Lemma validate_schema_never_loads_witness :
  TaskDefinition._validate_schema project_fs run_definition run_schema
  = Raise (NameError "file_path").
Proof.
  apply (proj2 (proj2 (validate_schema_never_loads project_fs project_fs
                         run_definition run_schema))).
  reflexivity.
Defined.


Lemma experiment_first_stray_key_witness :
  ExperimentSchema.validate (ExperimentSchema.mk [("train", stray_task)])
  = Raise (ValueError "Task train has a parameter x that is not an input.").
Proof.
  apply (experiment_first_stray_key "train" stray_task [("a", VInt 1)] [("z", VInt 3)]
           "x" (VInt 2)).
  - apply (bool_decide_unpack _). by vm_compute.
  - apply (bool_decide_unpack _). by vm_compute.
  - reflexivity.
  - intros k Hk. simpl in Hk. apply list_elem_of_singleton in Hk as ->.
    apply (bool_decide_unpack _). by vm_compute.
  - apply (bool_decide_unpack _). by vm_compute.
Defined.

Section bump_samples.
Import Bump BumpSpec.

Lemma bump_absorbs_witness :
  bump (bump v123 RC) MINOR = bump v123 MINOR.
Proof. apply (bump_absorbs v123 RC MINOR). simpl. lia. Defined.

Lemma scan_matches_iff_witness :
  scan "1.2.3" = Some (semver_groups "1" "2" "3" None).
Proof.
  apply (proj2 (scan_matches_iff "1.2.3" (semver_groups "1" "2" "3" None))).
  exists "1", "2", "3", None. split; [|reflexivity].
  left. exists "". split; [by repeat split|]. split; [by left|reflexivity].
Defined.

Lemma from_string_reads_decimals_witness :
  from_string "1.2.3-rc.4" = Return (Some (mk_version 1 2 3 (Some 4%Z)))
  /\ from_string ("1.2.3-rc.4" +:+ String newline "")
     = Return (Some (mk_version 1 2 3 (Some 4%Z)))
  /\ from_string (version_line "1.2.3-rc.4")
     = Return (Some (mk_version 1 2 3 (Some 4%Z))).
Proof.
  apply (from_string_reads_decimals 1 2 3 (Some 4%N)).
  repeat split; apply Nat.leb_le; reflexivity.
Defined.

Lemma from_string_raises_only_overlong_witness :
  exists r, from_string "1.2.3" = Return r.
Proof.
  apply (proj1 (from_string_raises_only_overlong "1.2.3")).
  apply Nat.leb_le. reflexivity.
Defined.

Lemma written_line_never_scans_witness :
  scan (version_line "major=1 minor=2 patch=3 rc=None") = None
  /\ from_string (version_line "major=1 minor=2 patch=3 rc=None") = Return None.
Proof. apply (written_line_never_scans v123). reflexivity. Defined.

Lemma update_collapses_lines_witness :
  exists fs',
    update_version_in_file project_files "proj/pyproject.toml" (bump v123 PATCH)
    = Return fs'
    /\ exists text,
         fs' !! "proj/pyproject.toml" = Some (File text) /\ occurs newline text = false.
Proof.
  destruct (update_version_in_file project_files "proj/pyproject.toml" (bump v123 PATCH))
    as [fs'|e] eqn:E; [|by vm_compute in E].
  exists fs'. split; [reflexivity|].
  apply (proj1 (update_collapses_lines project_files fs' "proj/pyproject.toml"
                  (bump v123 PATCH) E)).
Defined.

Lemma version_lost_after_update_witness :
  exists fs',
    update_version_in_file project_files "proj/pyproject.toml" (bump v123 PATCH)
    = Return fs'
    /\ get_version_from_file fs' "proj/pyproject.toml" = Return None.
Proof.
  destruct (update_version_in_file project_files "proj/pyproject.toml" (bump v123 PATCH))
    as [fs'|e] eqn:E; [|by vm_compute in E].
  exists fs'. split; [reflexivity|].
  apply (version_lost_after_update project_files fs' "proj/pyproject.toml"
           v123 (bump v123 PATCH)); [by vm_compute|exact E].
Defined.

Lemma get_version_none_iff_witness :
  get_version_from_file (fs unversioned_world) "proj/src/yoot/__version__.py"
  = Return None.
Proof.
  apply (proj2 (get_version_none_iff (fs unversioned_world)
                  "proj/src/yoot/__version__.py" ("# nothing here" +:+ line_feed)
                  ltac:(by vm_compute))).
  intros line Hin.
  change (line ∈ ["# nothing here" +:+ line_feed]) in Hin.
  apply list_elem_of_singleton in Hin as ->. by vm_compute.
Defined.

Lemma main_bumps_both_witness :
  exists fs1 fs2,
    update_version_in_file (fs project_world) (slash "proj" version_file)
      (bump v123 PATCH) = Return fs1
    /\ update_version_in_file fs1 (slash "proj" pyproject_file) (bump v123 PATCH)
       = Return fs2
    /\ main slash "proj" PATCH project_world
       = (Return tt,
          mk_world fs2
            [msg_bumped version_file "major=1 minor=2 patch=4 rc=None";
             msg_bumped pyproject_file "major=1 minor=2 patch=4 rc=None"]).
Proof.
  apply (main_bumps_both slash "proj" PATCH project_world v123
           "major=1 minor=2 patch=4 rc=None"); by vm_compute.
Defined.

Lemma main_fails_after_first_write_witness :
  exists fs1,
    update_version_in_file (fs mismatched_world) (slash "proj" version_file)
      (bump v123 PATCH) = Return fs1
    /\ main slash "proj" PATCH mismatched_world
       = (Throw (BadParameter (msg_different_version pyproject_file)),
          mk_world fs1 [msg_bumped version_file "major=1 minor=2 patch=4 rc=None"]).
Proof.
  destruct (main_fails_after_first_write slash "proj" PATCH mismatched_world v123
              "major=1 minor=2 patch=4 rc=None"
              ltac:(by vm_compute) ltac:(by vm_compute) ltac:(by vm_compute))
    as (fs1 & Hup & _ & _ & Hother).
  exists fs1. split; [exact Hup|].
  apply (Hother (Some (mk_version 2 0 0 None))); by vm_compute.
Defined.

Lemma main_writes_nothing_witness :
  main slash "proj" MAJOR unversioned_world
  = (Throw (BadParameter (msg_no_version version_file)), unversioned_world).
Proof.
  apply (proj2 (main_writes_nothing slash "proj" MAJOR unversioned_world)).
  by vm_compute.
Defined.

Lemma main_not_repeatable_witness :
  exists w',
    main slash "proj" PATCH project_world = (Return tt, w')
    /\ main slash "proj" RC w'
       = (Throw (BadParameter (msg_no_version version_file)), w').
Proof.
  destruct (main_not_repeatable slash "proj" PATCH project_world v123
              "major=1 minor=2 patch=4 rc=None"
              ltac:(by vm_compute) ltac:(by vm_compute) ltac:(by vm_compute)
              ltac:(by vm_compute))
    as (w' & Hrun & Hagain).
  exists w'. split; [exact Hrun|apply Hagain].
Defined.
End bump_samples.
